(** * App.tsx: the certificate intake / pipeline / export state machine

    A shallow embedding of the component [App] of [src/App.tsx]: its three
    pieces of React state, the three handlers [handleFileUpload],
    [simulateUnrevoke] and [handleDownload], and the few browser facilities
    they drive (toasts, timers, object URLs, anchor clicks).

    JavaScript strings are modelled by [string], a blob's contents by
    [list byte], [Date.now()] by an integer number of milliseconds and
    [Math.random()] by a rational number. *)

From Stdlib Require Import String Ascii List ZArith QArith Lia Bool Arith.
From Stdlib.Strings Require Import Byte.
From Stdlib Require Import DecimalString DecimalPos DecimalZ.
From Stdlib.Lists Require Import Finite.
Import ListNotations.

Local Open Scope nat_scope.
Local Open Scope list_scope.
Local Open Scope string_scope.

(** ** String primitives of the host language *)

Module JsString.

(** [String.prototype.endsWith(searchString)]: with [start] the difference
    of the two lengths, the answer is [false] when [start] is negative and
    otherwise whether the code units from [start] on are [searchString]. *)
Definition endsWith (s searchString : string) : bool :=
  let len := String.length s in
  let searchLength := String.length searchString in
  if Nat.ltb len searchLength then false
  else String.eqb (substring (len - searchLength) searchLength s) searchString.

(** [String.prototype.replace(searchValue, replaceValue)] for a string
    [searchValue]: only the first occurrence is replaced; without an
    occurrence the receiver is returned.  [replaceValue] is inserted
    literally, which is what the host does when it holds no [$]. *)
Definition replace (s searchValue replaceValue : string) : string :=
  match index 0 searchValue s with
  | None => s
  | Some pos =>
      let after := pos + String.length searchValue in
      substring 0 pos s ++ replaceValue
        ++ substring after (String.length s - after) s
  end.

(** Template-literal rendering of an integral number. *)
Definition ofInt (z : Z) : string := NilZero.string_of_int (Z.to_int z).

End JsString.

Import JsString.

(** ** Data model *)

Module File.
(** A DOM [File]: a [Blob] that carries a name.  [size] is the number of
    bytes of the blob. *)
Record t := mk { name : string; content : list byte }.
Definition size (f : t) : nat := List.length (content f).
End File.

(** What a slot declared [file?: File] can hold when [handleDownload] tests
    it: nothing, a [File] (every [File] is an instance of [Blob]), or a
    truthy value for which [instanceof Blob] is false. *)
Inductive FileValue :=
| DomFile (f : File.t)
| NotBlob.

Inductive Status := revoked | active | processing.
Inductive CertType := development | distribution.

Module CertificateInfo.
Record t := mk {
  id : string;
  name : string;
  status : Status;
  issueDate : string;
  expiryDate : string;
  bundleId : string;
  type : CertType;
  file : option FileValue
}.
End CertificateInfo.

(** Messages handed to the notification sink; a call that gives no
    [variant] is shown with the [default] one. *)
Inductive Variant := default | destructive.
Record Toast := { title : string; description : string; variant : Variant }.

(** What the host supplies when a record is built: the three readings of
    [Date.now()] in the order of the object literal, the draw of
    [Math.random()] and the locale's rendering of a date. *)
Record Host := {
  now_id : Z;
  now_issue : Z;
  now_expiry : Z;
  random : Q;
  toLocaleDateString : Z -> string
}.

(** The anchor element built by [handleDownload] and what the browser
    writes to disk when it is clicked. *)
Record Anchor := { href : nat; download : string }.
Record Artifact := { savedAs : string; bytes : list byte }.

(** A pending timer.  [Stage f i] is [simulateUnrevoke] suspended in the
    [await] of iteration [i] of its loop, holding the [selectedFile] its
    closure captured; [Cleanup a url] is the callback [handleDownload]
    schedules. *)
Inductive Task :=
| Stage (selectedFile : File.t) (i : nat)
| Cleanup (a : Anchor) (url : nat).

(** The component's three pieces of state and the parts of the page the
    handlers touch. *)
Record World := {
  certificates : list CertificateInfo.t;
  selectedFile : option File.t;
  isProcessing : bool;
  toasts : list Toast;
  fileInputValue : string;
  objectURLs : list (nat * File.t);
  nextURL : nat;
  body : list Anchor;
  saved : list Artifact;
  timers : list Task
}.

Definition initialWorld : World :=
  {| certificates := []; selectedFile := None; isProcessing := false;
     toasts := []; fileInputValue := ""; objectURLs := []; nextURL := 0;
     body := []; saved := []; timers := [] |}.

(** ** A state monad over [World] *)

Definition M (A : Type) : Type := World -> A * World.

Definition ret {A} (a : A) : M A := fun w => (a, w).
Definition bind {A B} (m : M A) (k : A -> M B) : M B :=
  fun w => let (a, w') := m w in k a w'.
Definition runM {A} (m : M A) (w : World) : World := snd (m w).

Notation "x <- m ;; k" := (bind m (fun x => k))
  (at level 61, m at next level, right associativity).
Notation "m ;; k" := (bind m (fun _ => k))
  (at level 61, right associativity).

Definition get_selectedFile : M (option File.t) := fun w => (selectedFile w, w).

Definition setCertificates (f : list CertificateInfo.t -> list CertificateInfo.t)
  : M unit := fun w =>
  (tt, {| certificates := f (certificates w); selectedFile := selectedFile w;
          isProcessing := isProcessing w; toasts := toasts w;
          fileInputValue := fileInputValue w; objectURLs := objectURLs w;
          nextURL := nextURL w; body := body w; saved := saved w;
          timers := timers w |}).

Definition setSelectedFile (v : option File.t) : M unit := fun w =>
  (tt, {| certificates := certificates w; selectedFile := v;
          isProcessing := isProcessing w; toasts := toasts w;
          fileInputValue := fileInputValue w; objectURLs := objectURLs w;
          nextURL := nextURL w; body := body w; saved := saved w;
          timers := timers w |}).

Definition setIsProcessing (b : bool) : M unit := fun w =>
  (tt, {| certificates := certificates w; selectedFile := selectedFile w;
          isProcessing := b; toasts := toasts w;
          fileInputValue := fileInputValue w; objectURLs := objectURLs w;
          nextURL := nextURL w; body := body w; saved := saved w;
          timers := timers w |}).

(** The sink keeps the newest message first. *)
Definition toast (t : Toast) : M unit := fun w =>
  (tt, {| certificates := certificates w; selectedFile := selectedFile w;
          isProcessing := isProcessing w; toasts := t :: toasts w;
          fileInputValue := fileInputValue w; objectURLs := objectURLs w;
          nextURL := nextURL w; body := body w; saved := saved w;
          timers := timers w |}).

Definition setFileInputValue (v : string) : M unit := fun w =>
  (tt, {| certificates := certificates w; selectedFile := selectedFile w;
          isProcessing := isProcessing w; toasts := toasts w;
          fileInputValue := v; objectURLs := objectURLs w;
          nextURL := nextURL w; body := body w; saved := saved w;
          timers := timers w |}).

(** [URL.createObjectURL]: a URL not handed out before, bound to the blob. *)
Definition createObjectURL (blob : File.t) : M nat := fun w =>
  (nextURL w,
   {| certificates := certificates w; selectedFile := selectedFile w;
      isProcessing := isProcessing w; toasts := toasts w;
      fileInputValue := fileInputValue w;
      objectURLs := (nextURL w, blob) :: objectURLs w;
      nextURL := S (nextURL w); body := body w; saved := saved w;
      timers := timers w |}).

Definition revokeObjectURL (url : nat) : M unit := fun w =>
  (tt, {| certificates := certificates w; selectedFile := selectedFile w;
          isProcessing := isProcessing w; toasts := toasts w;
          fileInputValue := fileInputValue w;
          objectURLs := filter (fun e => negb (Nat.eqb (fst e) url)) (objectURLs w);
          nextURL := nextURL w; body := body w; saved := saved w;
          timers := timers w |}).

Definition Anchor_eqb (a b : Anchor) : bool :=
  Nat.eqb (href a) (href b) && String.eqb (download a) (download b).

Fixpoint removeFirst (a : Anchor) (l : list Anchor) : list Anchor :=
  match l with
  | [] => []
  | b :: l' => if Anchor_eqb a b then l' else b :: removeFirst a l'
  end.

Definition appendChild (a : Anchor) : M unit := fun w =>
  (tt, {| certificates := certificates w; selectedFile := selectedFile w;
          isProcessing := isProcessing w; toasts := toasts w;
          fileInputValue := fileInputValue w; objectURLs := objectURLs w;
          nextURL := nextURL w; body := body w ++ [a]; saved := saved w;
          timers := timers w |}).

Definition removeChild (a : Anchor) : M unit := fun w =>
  (tt, {| certificates := certificates w; selectedFile := selectedFile w;
          isProcessing := isProcessing w; toasts := toasts w;
          fileInputValue := fileInputValue w; objectURLs := objectURLs w;
          nextURL := nextURL w; body := removeFirst a (body w);
          saved := saved w; timers := timers w |}).

Fixpoint resolveURL (url : nat) (l : list (nat * File.t)) : option File.t :=
  match l with
  | [] => None
  | (u, blob) :: l' => if Nat.eqb u url then Some blob else resolveURL url l'
  end.

(** Clicking an anchor that has a [download] attribute saves what its
    [href] resolves to under that name; a revoked URL saves nothing. *)
Definition click (a : Anchor) : M unit := fun w =>
  match resolveURL (href a) (objectURLs w) with
  | Some blob =>
      (tt, {| certificates := certificates w; selectedFile := selectedFile w;
              isProcessing := isProcessing w; toasts := toasts w;
              fileInputValue := fileInputValue w; objectURLs := objectURLs w;
              nextURL := nextURL w; body := body w;
              saved := {| savedAs := download a; bytes := File.content blob |}
                         :: saved w;
              timers := timers w |})
  | None => (tt, w)
  end.

Definition setTimeout (t : Task) : M unit := fun w =>
  (tt, {| certificates := certificates w; selectedFile := selectedFile w;
          isProcessing := isProcessing w; toasts := toasts w;
          fileInputValue := fileInputValue w; objectURLs := objectURLs w;
          nextURL := nextURL w; body := body w; saved := saved w;
          timers := timers w ++ [t] |}).

(** ** The handlers of [App] *)

Definition uploadedToast (file : File.t) : Toast :=
  {| title := "Certificate uploaded";
     description := File.name file ++ " ready for processing";
     variant := default |}.

Definition invalidFormatToast : Toast :=
  {| title := "Invalid file format";
     description := "Please upload a .p12 certificate file";
     variant := destructive |}.

Definition missingFileToast : Toast :=
  {| title := "Missing file";
     description := "Please upload a certificate file.";
     variant := destructive |}.

Definition successToast : Toast :=
  {| title := "Success!";
     description := "Certificate has been successfully unrevoked";
     variant := default |}.

Definition downloadFailedToast : Toast :=
  {| title := "Download failed";
     description := "Certificate file is missing or invalid.";
     variant := destructive |}.

(** [handleFileUpload]; the argument is [event.target.files?.[0]]. *)
Definition handleFileUpload (files0 : option File.t) : M unit :=
  match files0 with
  | Some file =>
      if endsWith (File.name file) ".p12" then
        setSelectedFile (Some file) ;;
        toast (uploadedToast file)
      else toast invalidFormatToast
  | None => toast invalidFormatToast
  end.

Definition steps : list (nat * string) :=
  [ (20, "Validating certificate...");
    (40, "Decrypting P12 file...");
    (60, "Checking revocation status...");
    (80, "Initiating unrevoke process...");
    (100, "Certificate unrevoked successfully!") ].

(** The template literal [`cert_${Date.now()}`]. *)
Definition certId (now : Z) : string := "cert_" ++ ofInt now.

(** The object literal [newCert]. *)
Definition newCert (h : Host) (selectedFile : File.t) : CertificateInfo.t :=
  {| CertificateInfo.id := certId (now_id h);
     CertificateInfo.name := replace (File.name selectedFile) ".p12" "";
     CertificateInfo.status := active;
     CertificateInfo.issueDate :=
       toLocaleDateString h (now_issue h - 30 * 24 * 60 * 60 * 1000)%Z;
     CertificateInfo.expiryDate :=
       toLocaleDateString h (now_expiry h + 365 * 24 * 60 * 60 * 1000)%Z;
     CertificateInfo.bundleId := "com.example.app";
     CertificateInfo.type :=
       if Qle_bool (random h) (1 # 2)%Q then distribution else development;
     CertificateInfo.file := Some (DomFile selectedFile) |}.

(** What [simulateUnrevoke] does once its loop is over. *)
Definition finish (h : Host) (selectedFile : File.t) : M unit :=
  setCertificates (fun prev => newCert h selectedFile :: prev) ;;
  toast successToast ;;
  setSelectedFile None ;;
  setFileInputValue "".

(** The head of the loop [for (let i = 0; i < steps.length; i++)]: either
    suspend in the [await] of iteration [i] or leave the loop. *)
Definition loop (h : Host) (selectedFile : File.t) (i : nat) : M unit :=
  if Nat.ltb i (List.length steps) then setTimeout (Stage selectedFile i)
  else finish h selectedFile.

(** [simulateUnrevoke], up to its first suspension. *)
Definition simulateUnrevoke (h : Host) : M unit :=
  current <- get_selectedFile ;;
  match current with
  | None => toast missingFileToast
  | Some selectedFile =>
      setIsProcessing true ;;
      loop h selectedFile 0
  end.

(** The name given to the saved file. *)
Definition downloadName (name : string) : string :=
  if endsWith name ".p12" then name else name ++ ".p12".

Definition handleDownload (file : option FileValue) (name : string) : M unit :=
  match file with
  | Some (DomFile blob) =>
      url <- createObjectURL blob ;;
      let a := {| href := url; download := downloadName name |} in
      appendChild a ;;
      click a ;;
      setTimeout (Cleanup a url)
  | Some NotBlob | None => toast downloadFailedToast
  end.

(** A timer fires: a suspended [simulateUnrevoke] goes on with [i++] and the
    loop test, a clean-up callback runs. *)
Definition resume (h : Host) (t : Task) : M unit :=
  match t with
  | Stage selectedFile i => loop h selectedFile (S i)
  | Cleanup a url => removeChild a ;; revokeObjectURL url
  end.

(** The [disabled] attributes of the two buttons. *)
Definition unrevokeDisabled (w : World) : bool :=
  match selectedFile w with None => true | Some _ => isProcessing w end.

Definition downloadDisabled (cert : CertificateInfo.t) : bool :=
  match CertificateInfo.file cert with None => true | Some _ => false end.

(** ** The event loop *)

Inductive Event :=
| Change (files0 : option File.t)
| Unrevoke (h : Host)
| Download (n : nat)
| Timeout (n : nat) (h : Host).

Fixpoint removeNth {A} (n : nat) (l : list A) : list A :=
  match l, n with
  | [], _ => []
  | _ :: l', 0 => l'
  | a :: l', S n' => a :: removeNth n' l'
  end.

Definition takeTimer (n : nat) : M (option Task) := fun w =>
  (nth_error (timers w) n,
   {| certificates := certificates w; selectedFile := selectedFile w;
      isProcessing := isProcessing w; toasts := toasts w;
      fileInputValue := fileInputValue w; objectURLs := objectURLs w;
      nextURL := nextURL w; body := body w; saved := saved w;
      timers := removeNth n (timers w) |}).

Definition get_certificates : M (list CertificateInfo.t) :=
  fun w => (certificates w, w).

(** One turn of the event loop.  [Change] is the user picking a file (or
    nothing) in the file input, [Unrevoke] a call of [simulateUnrevoke],
    [Download n] a call of [handleDownload] for the [n]-th listed
    certificate, [Timeout n] the firing of the [n]-th pending timer. *)
Definition step (e : Event) : M unit :=
  match e with
  | Change files0 =>
      setFileInputValue
        (match files0 with
         | Some file => "C:\fakepath\" ++ File.name file
         | None => ""
         end) ;;
      handleFileUpload files0
  | Unrevoke h => simulateUnrevoke h
  | Download n =>
      certs <- get_certificates ;;
      match nth_error certs n with
      | Some cert =>
          handleDownload (CertificateInfo.file cert) (CertificateInfo.name cert)
      | None => ret tt
      end
  | Timeout n h =>
      t <- takeTimer n ;;
      match t with
      | Some task => resume h task
      | None => ret tt
      end
  end.

Fixpoint exec (evs : list Event) (w : World) : World :=
  match evs with
  | [] => w
  | e :: evs' => exec evs' (runM (step e) w)
  end.

(** A run of the pipeline on its own: the call and the five timers of its
    stages, the last of which builds the record under host [h]. *)
Definition pipelineRun (h : Host) (w : World) : list Event :=
  Unrevoke h :: repeat (Timeout (List.length (timers w)) h) (List.length steps).

(** ** Observing a trace *)

(** The record a turn of the loop builds, if it builds one: the firing of
    the timer of the last stage of a run. *)
Definition produced (e : Event) (w : World) : option CertificateInfo.t :=
  match e with
  | Timeout n h =>
      match nth_error (timers w) n with
      | Some (Stage selectedFile i) =>
          if Nat.ltb (S i) (List.length steps) then None
          else Some (newCert h selectedFile)
      | Some (Cleanup _ _) | None => None
      end
  | Change _ | Unrevoke _ | Download _ => None
  end.

(** The reading of [Date.now()] that goes into the identifier, where a
    record is built. *)
Definition completionStamp (e : Event) (w : World) : option Z :=
  match e, produced e w with
  | Timeout _ h, Some _ => Some (now_id h)
  | _, _ => None
  end.

(** The completion timestamps of the runs of a trace, oldest first. *)
Fixpoint completionStamps (evs : list Event) (w : World) : list Z :=
  match evs with
  | [] => []
  | e :: evs' =>
      match completionStamp e w with
      | Some z => z :: completionStamps evs' (runM (step e) w)
      | None => completionStamps evs' (runM (step e) w)
      end
  end.

(** ** Concrete inputs used by the examples *)

(** A host whose locale renders a date as its day number since the epoch. *)
Definition sampleHost : Host :=
  {| now_id := 1762077600000; now_issue := 1762077600000;
     now_expiry := 1762077600001; random := (3 # 4)%Q;
     toLocaleDateString := fun ms => ofInt (ms / 86400000) |}.

(** The same instant with another draw of [Math.random()]. *)
Definition sampleHost' : Host :=
  {| now_id := 1762077600000; now_issue := 1762077600000;
     now_expiry := 1762077600000; random := (1 # 4)%Q;
     toLocaleDateString := fun ms => ofInt (ms / 86400000) |}.

(** A later instant. *)
Definition laterHost : Host :=
  {| now_id := 1762077605003; now_issue := 1762077605003;
     now_expiry := 1762077605003; random := (1 # 4)%Q;
     toLocaleDateString := fun ms => ofInt (ms / 86400000) |}.

Definition cert1 : File.t :=
  File.mk "cert1.p12" [Byte.x30; Byte.x82; Byte.x0a; Byte.x1f; Byte.x02].

Definition mycert : File.t :=
  File.mk "mycert.p12" [Byte.x30; Byte.x82; Byte.x09].

Definition doubleExt : File.t :=
  File.mk "cert.p12.p12" [Byte.x30; Byte.x82].

Definition innerExt : File.t :=
  File.mk "a.p12b.p12" [Byte.x30].

Definition notes : File.t :=
  File.mk "notes.txt" [Byte.x68; Byte.x69].

Definition upperExt : File.t :=
  File.mk "CERT.P12" [Byte.x30; Byte.x82].

(** [cert1.p12] is picked and [simulateUnrevoke] is called twice before any
    timer fires; the timers of the two runs then fire in turn, and the two
    last ones within the same millisecond. *)
Definition doubleStart : list Event :=
  [ Change (Some cert1); Unrevoke sampleHost; Unrevoke sampleHost;
    Timeout 0 sampleHost; Timeout 0 sampleHost;
    Timeout 0 sampleHost; Timeout 0 sampleHost;
    Timeout 0 sampleHost; Timeout 0 sampleHost;
    Timeout 0 sampleHost; Timeout 0 sampleHost;
    Timeout 0 sampleHost; Timeout 0 sampleHost' ].

(** Two runs one after the other, five seconds apart. *)
Definition twoRuns : list Event :=
  (Change (Some cert1) :: pipelineRun sampleHost initialWorld
   ++ Change (Some mycert) :: pipelineRun laterHost initialWorld)%list.

(** ** Reference definitions taken from the specification's wording *)

(** The name with its [.p12] suffix stripped. *)
Definition stripP12Suffix (name : string) : string :=
  if endsWith name ".p12" then substring 0 (String.length name - 4) name
  else name.

(** ** What [App] renders *)

(** The [variant] property of a [Badge]; a badge given none has the
    [badgeDefault] one. *)
Inductive BadgeVariant := badgeDefault | badgeSecondary | badgeDestructive.

Inductive Icon := CheckCircle | AlertCircle | RefreshCw.

Record Badge := {
  badgeVariant : BadgeVariant;
  badgeClassName : option string;
  badgeIcon : Icon;
  badgeIconClassName : string;
  badgeLabel : string
}.

(** [getStatusBadge]. *)
Definition getStatusBadge (status : Status) : Badge :=
  match status with
  | active =>
      {| badgeVariant := badgeDefault;
         badgeClassName := Some "bg-green-100 text-green-800 hover:bg-green-100";
         badgeIcon := CheckCircle; badgeIconClassName := "w-3 h-3 mr-1";
         badgeLabel := "Active" |}
  | revoked =>
      {| badgeVariant := badgeDestructive; badgeClassName := None;
         badgeIcon := AlertCircle; badgeIconClassName := "w-3 h-3 mr-1";
         badgeLabel := "Revoked" |}
  | processing =>
      {| badgeVariant := badgeSecondary; badgeClassName := None;
         badgeIcon := RefreshCw;
         badgeIconClassName := "w-3 h-3 mr-1 animate-spin";
         badgeLabel := "Processing" |}
  end.

(** Whether the page lets an event reach its handler: a click on a button
    whose [disabled] attribute is set runs nothing, and there is a download
    button only for a listed certificate. *)
Definition enabled (e : Event) (w : World) : bool :=
  match e with
  | Change _ => true
  | Unrevoke _ => negb (unrevokeDisabled w)
  | Download n =>
      match nth_error (certificates w) n with
      | Some cert => negb (downloadDisabled cert)
      | None => false
      end
  | Timeout _ _ => true
  end.

(** A turn of the event loop on the rendered page. *)
Definition uiStep (e : Event) : M unit := fun w =>
  if enabled e w then step e w else (tt, w).

Fixpoint uiExec (evs : list Event) (w : World) : World :=
  match evs with
  | [] => w
  | e :: evs' => uiExec evs' (runM (uiStep e) w)
  end.

(** The events of a sequence that reach their handler on the page. *)
Fixpoint performed (evs : list Event) (w : World) : list Event :=
  match evs with
  | [] => []
  | e :: evs' =>
      if enabled e w then e :: performed evs' (runM (step e) w)
      else performed evs' w
  end.

(** ** More observations of a trace *)

(** The runs in flight: the pending timers that hold a stage. *)
Fixpoint stagesPending (ts : list Task) : nat :=
  match ts with
  | [] => 0
  | Stage _ _ :: ts' => S (stagesPending ts')
  | Cleanup _ _ :: ts' => stagesPending ts'
  end.

(** The pending clean-ups, oldest first: the anchor to remove and the URL
    to revoke. *)
Fixpoint cleanups (ts : list Task) : list (Anchor * nat) :=
  match ts with
  | [] => []
  | Stage _ _ :: ts' => cleanups ts'
  | Cleanup a url :: ts' => (a, url) :: cleanups ts'
  end.

(** The files [handleFileUpload] accepts along a trace. *)
Fixpoint uploads (evs : list Event) : list File.t :=
  match evs with
  | [] => []
  | Change (Some file) :: evs' =>
      if endsWith (File.name file) ".p12" then file :: uploads evs'
      else uploads evs'
  | _ :: evs' => uploads evs'
  end.

(** The object URLs and the anchors of the page are those of the pending
    clean-ups: the anchors in the order of the timers, the URLs newest
    first, each clean-up revoking the URL of its anchor, no URL twice and
    none that [createObjectURL] could hand out again. *)
Definition tidy (w : World) : Prop :=
  body w = map fst (cleanups (timers w))
  /\ map fst (objectURLs w) = rev (map snd (cleanups (timers w)))
  /\ Forall (fun c => href (fst c) = snd c /\ snd c < nextURL w)
       (cleanups (timers w))
  /\ NoDup (map snd (cleanups (timers w))).

(** Every file held anywhere on the page is one of [pool], and every
    artifact saved has the bytes of one of them and a name that ends with
    [.p12]. *)
Definition drawnFrom (pool : list File.t) (w : World) : Prop :=
  (forall f, selectedFile w = Some f -> In f pool)
  /\ (forall f i, In (Stage f i) (timers w) -> In f pool)
  /\ Forall (fun r => exists g, CertificateInfo.file r = Some (DomFile g)
                                /\ In g pool)
       (certificates w)
  /\ Forall (fun art => endsWith (savedAs art) ".p12" = true
                        /\ exists g, In g pool
                                     /\ bytes art = File.content g)
       (saved w).

(** [simulateUnrevoke] is called twice in a row; the timers of the second
    run fire, then those of the first. *)
Definition doubleCall (h : Host) (w : World) : list Event :=
  (Unrevoke h :: Unrevoke h
   :: repeat (Timeout (S (List.length (timers w))) h) (List.length steps)
   ++ repeat (Timeout (List.length (timers w)) h) (List.length steps))%list.

Definition isSuccessToast (t : Toast) : bool := String.eqb (title t) "Success!".

(** A file is picked while a run is under way: the run is started, [k] of
    its timers fire, [g] is picked, and the remaining timers fire. *)
Definition pickDuringRun (h : Host) (w : World) (k : nat) (g : File.t)
  : list Event :=
  (Unrevoke h :: repeat (Timeout (List.length (timers w)) h) k
   ++ Change (Some g)
      :: repeat (Timeout (List.length (timers w)) h) (List.length steps - k))%list.

(** ** Facts about the string primitives *)

Lemma length_append (s t : string) :
  String.length (s ++ t) = String.length s + String.length t.
Proof. induction s as [|c s IH]; simpl; [reflexivity | now rewrite IH]. Qed.

Lemma append_empty_r (s : string) : s ++ "" = s.
Proof. induction s as [|c s IH]; simpl; [reflexivity | now rewrite IH]. Qed.

Lemma append_assoc (s t u : string) : (s ++ t) ++ u = s ++ (t ++ u).
Proof. induction s as [|c s IH]; simpl; [reflexivity | now rewrite IH]. Qed.

Lemma substring_all (s : string) : substring 0 (String.length s) s = s.
Proof. induction s as [|c s IH]; simpl; [reflexivity | now rewrite IH]. Qed.

Lemma substring_zero (n : nat) (s : string) : substring n 0 s = "".
Proof.
  revert n; induction s as [|c s IH]; intros [|n]; simpl; auto.
Qed.

Lemma substring_prefix (p q : string) :
  substring 0 (String.length p) (p ++ q) = p.
Proof.
  induction p as [|c p IH]; simpl.
  - apply substring_zero.
  - now rewrite IH.
Qed.

Lemma substring_suffix (p q : string) :
  substring (String.length p) (String.length q) (p ++ q) = q.
Proof.
  induction p as [|c p IH]; simpl; [apply substring_all | exact IH].
Qed.

Lemma substring_split (n : nat) (s : string) :
  n <= String.length s ->
  substring 0 n s ++ substring n (String.length s - n) s = s.
Proof.
  revert n; induction s as [|c s IH]; intros [|n] Hn; simpl in *;
    try reflexivity; try lia.
  - now rewrite substring_all.
  - rewrite IH by lia. reflexivity.
Qed.

(** [endsWith] is the suffix relation. *)
Lemma endsWith_iff (s suf : string) :
  endsWith s suf = true <-> exists p, s = p ++ suf.
Proof.
  unfold endsWith. split.
  - destruct (Nat.ltb_spec (String.length s) (String.length suf)) as [Hlt|Hge];
      [discriminate|].
    intros H. apply String.eqb_eq in H.
    exists (substring 0 (String.length s - String.length suf) s).
    pose proof (substring_split (String.length s - String.length suf) s) as Hs.
    replace (String.length s - (String.length s - String.length suf))
      with (String.length suf) in Hs by lia.
    rewrite H in Hs. symmetry. apply Hs. lia.
  - intros [p ->]. rewrite length_append.
    destruct (Nat.ltb_spec (String.length p + String.length suf)
                (String.length suf)) as [Hlt|Hge]; [lia|].
    replace (String.length p + String.length suf - String.length suf)
      with (String.length p) by lia.
    rewrite substring_suffix. apply String.eqb_refl.
Qed.

Lemma to_int_not_nil (z : Z) : Z.to_int z <> Decimal.Pos Decimal.Nil
                               /\ Z.to_int z <> Decimal.Neg Decimal.Nil.
Proof.
  destruct z as [|p|p]; simpl; split; try discriminate;
    intros [= H]; now apply (DecimalPos.Unsigned.to_uint_nonnil p).
Qed.

Lemma ofInt_inj (a b : Z) : ofInt a = ofInt b -> a = b.
Proof.
  unfold ofInt. intros H.
  apply DecimalZ.to_int_inj.
  destruct (to_int_not_nil a) as [Ha1 Ha2].
  destruct (to_int_not_nil b) as [Hb1 Hb2].
  pose proof (NilZero.isi _ Ha1 Ha2) as Ia.
  pose proof (NilZero.isi _ Hb1 Hb2) as Ib.
  rewrite H, Ib in Ia. now injection Ia.
Qed.

(** ** Facts about the event loop *)

Lemma nth_error_last {A} (l : list A) (x : A) :
  nth_error (l ++ [x])%list (List.length l) = Some x.
Proof. induction l as [|a l IH]; simpl; auto. Qed.

Lemma removeNth_last {A} (l : list A) (x : A) :
  removeNth (List.length l) (l ++ [x])%list = l.
Proof. induction l as [|a l IH]; simpl; [reflexivity | now rewrite IH]. Qed.

(** Unfolds the monadic plumbing of a handler applied to a world. *)
Ltac handler :=
  unfold runM, step, resume, simulateUnrevoke, loop, finish, handleFileUpload,
    handleDownload, bind, ret, get_selectedFile, get_certificates, takeTimer,
    setCertificates, setSelectedFile, setIsProcessing, setFileInputValue,
    toast, createObjectURL, revokeObjectURL, appendChild, removeChild, click,
    setTimeout; simpl.

(** A timer that holds a stage before the last one only re-arms itself. *)
Lemma stage_rearms (h : Host) (f : File.t) (i : nat) (w : World) (ts : list Task) :
  timers w = (ts ++ [Stage f i])%list ->
  S i < List.length steps ->
  runM (step (Timeout (List.length ts) h)) w =
  {| certificates := certificates w; selectedFile := selectedFile w;
     isProcessing := isProcessing w; toasts := toasts w;
     fileInputValue := fileInputValue w; objectURLs := objectURLs w;
     nextURL := nextURL w; body := body w; saved := saved w;
     timers := (ts ++ [Stage f (S i)])%list |}.
Proof.
  intros Ht Hi. apply Nat.ltb_lt in Hi.
  unfold runM, step, bind, takeTimer.
  rewrite Ht, nth_error_last, removeNth_last.
  unfold resume, loop. rewrite Hi. reflexivity.
Qed.

(** The timer of the last stage builds the record. *)
Lemma stage_completes (h : Host) (f : File.t) (i : nat) (w : World) (ts : list Task) :
  timers w = (ts ++ [Stage f i])%list ->
  List.length steps <= S i ->
  runM (step (Timeout (List.length ts) h)) w =
  {| certificates := newCert h f :: certificates w; selectedFile := None;
     isProcessing := isProcessing w; toasts := successToast :: toasts w;
     fileInputValue := ""; objectURLs := objectURLs w;
     nextURL := nextURL w; body := body w; saved := saved w;
     timers := ts |}.
Proof.
  intros Ht Hi. apply Nat.ltb_ge in Hi.
  unfold runM, step, bind, takeTimer.
  rewrite Ht, nth_error_last, removeNth_last.
  unfold resume, loop. rewrite Hi. reflexivity.
Qed.

(** Fires the one timer whose world is written out in the goal. *)
Ltac fire lem :=
  match goal with
  | |- context [runM (step (Timeout _ ?h))
                  (Build_World ?c ?s ?p ?t ?v ?o ?n ?b ?a
                     (?ts ++ [Stage ?f ?i])%list)] =>
      rewrite (lem h f i (Build_World c s p t v o n b a
                            (ts ++ [Stage f i])%list) ts)
        by (try reflexivity; simpl; lia);
      cbn [certificates selectedFile isProcessing toasts fileInputValue
           objectURLs nextURL body saved timers]
  end.

(** The whole of a run started with [f] selected. *)
Lemma pipelineRun_exec (h : Host) (w : World) (f : File.t) :
  selectedFile w = Some f ->
  exec (pipelineRun h w) w =
  {| certificates := newCert h f :: certificates w; selectedFile := None;
     isProcessing := true; toasts := successToast :: toasts w;
     fileInputValue := ""; objectURLs := objectURLs w;
     nextURL := nextURL w; body := body w; saved := saved w;
     timers := timers w |}.
Proof.
  intros Hf. unfold pipelineRun.
  change (List.length steps) with 5. cbn [repeat exec].
  assert (H0 : runM (step (Unrevoke h)) w =
    {| certificates := certificates w; selectedFile := Some f;
       isProcessing := true; toasts := toasts w;
       fileInputValue := fileInputValue w; objectURLs := objectURLs w;
       nextURL := nextURL w; body := body w; saved := saved w;
       timers := (timers w ++ [Stage f 0])%list |}).
  { destruct w; simpl in *; subst. reflexivity. }
  rewrite H0.
  do 4 fire stage_rearms. fire stage_completes.
  reflexivity.
Qed.

(** ** The file intake *)

(** C2. [handleFileUpload] takes its accepting path, announced by the
    "Certificate uploaded" message, exactly when the name of the file ends
    with [.p12]; on that path the file becomes the selected file, and
    otherwise the "Invalid file format" message is sent and the selected
    file stays what it was. *)
Theorem handleFileUpload_accepts_iff_p12_suffix (f : File.t) (w : World) :
  let w' := runM (handleFileUpload (Some f)) w in
  let accepted := toasts w' = uploadedToast f :: toasts w in
  (accepted <-> exists p, File.name f = p ++ ".p12")
  /\ (endsWith (File.name f) ".p12" = true <-> exists p, File.name f = p ++ ".p12")
  /\ (accepted /\ selectedFile w' = Some f
      \/ ~ accepted /\ toasts w' = invalidFormatToast :: toasts w
         /\ selectedFile w' = selectedFile w
         /\ certificates w' = certificates w
         /\ isProcessing w' = isProcessing w).
Proof.
  cbv zeta. rewrite <- endsWith_iff.
  unfold handleFileUpload.
  destruct (endsWith (File.name f) ".p12") eqn:E; handler.
  - repeat split; auto.
  - assert (N : invalidFormatToast :: toasts w <> uploadedToast f :: toasts w)
      by (intros [= H _]; discriminate H).
    split; [split; intros H; [now elim N | discriminate H]|].
    split; [split; intros H; [discriminate H | exact H]|].
    right. repeat split; auto.
Qed.

(** The suffix test is case-sensitive: [CERT.P12] is rejected. *)
Example handleFileUpload_is_case_sensitive :
  runM (handleFileUpload (Some upperExt)) initialWorld
  = runM (toast invalidFormatToast) initialWorld.
Proof. reflexivity. Qed.

(** C10. A change event that carries no file takes the rejecting path: the
    "Invalid file format" message is sent and the selected file stays what
    it was, which is all that happens for a file with a wrong suffix too. *)
Theorem handleFileUpload_empty_selection_rejected (f : File.t) (w : World) :
  endsWith (File.name f) ".p12" = false ->
  let w' := runM (handleFileUpload None) w in
  toasts w' = invalidFormatToast :: toasts w
  /\ selectedFile w' = selectedFile w
  /\ w' = runM (handleFileUpload (Some f)) w.
Proof.
  intros E. cbv zeta. unfold handleFileUpload. rewrite E.
  repeat split; reflexivity.
Qed.

Lemma handleFileUpload_empty_selection_rejected_witness :
  endsWith (File.name notes) ".p12" = false
  /\ toasts (runM (handleFileUpload None)
               (runM (setSelectedFile (Some cert1)) initialWorld))
     = [invalidFormatToast]
  /\ selectedFile (runM (handleFileUpload None)
                     (runM (setSelectedFile (Some cert1)) initialWorld))
     = Some cert1.
Proof.
  split; [reflexivity|].
  pose proof (handleFileUpload_empty_selection_rejected notes
                (runM (setSelectedFile (Some cert1)) initialWorld)
                eq_refl) as H.
  cbv zeta in H. destruct H as (Ht & Hs & _). split; [exact Ht | exact Hs].
Defined.

(** ** The pipeline *)

(** C3. With no file selected, [simulateUnrevoke] only sends the "Missing
    file" message: the records, the selected file, the busy flag and the
    pending timers are what they were. *)
Theorem simulateUnrevoke_without_file (h : Host) (w : World) :
  selectedFile w = None ->
  let w' := runM (simulateUnrevoke h) w in
  toasts w' = missingFileToast :: toasts w
  /\ variant missingFileToast = destructive
  /\ certificates w' = certificates w
  /\ selectedFile w' = selectedFile w
  /\ isProcessing w' = isProcessing w
  /\ timers w' = timers w
  /\ w' = runM (toast missingFileToast) w.
Proof.
  intros E. cbv zeta. unfold runM, simulateUnrevoke, bind, get_selectedFile.
  rewrite E. handler. repeat split; auto.
Qed.

Lemma simulateUnrevoke_without_file_witness :
  selectedFile initialWorld = None
  /\ toasts (runM (simulateUnrevoke sampleHost) initialWorld) = [missingFileToast]
  /\ certificates (runM (simulateUnrevoke sampleHost) initialWorld) = [].
Proof.
  split; [reflexivity|].
  pose proof (simulateUnrevoke_without_file sampleHost initialWorld eq_refl) as H.
  cbv zeta in H. destruct H as (Ht & _ & Hc & _). split; [exact Ht | exact Hc].
Defined.

(** No turn of the event loop sets [isProcessing] back to [false]. *)
Lemma step_keeps_isProcessing (e : Event) (w : World) :
  isProcessing w = true -> isProcessing (runM (step e) w) = true.
Proof.
  intros Hp. destruct e as [files0|h|n|n h].
  - destruct files0 as [file|]; handler; [|exact Hp].
    destruct (endsWith (File.name file) ".p12"); exact Hp.
  - unfold runM, step, simulateUnrevoke, bind, get_selectedFile.
    destruct (selectedFile w) as [f|]; [reflexivity | exact Hp].
  - unfold runM at 1. unfold step, bind, get_certificates.
    destruct (nth_error (certificates w) n) as [r|]; [|exact Hp].
    destruct (CertificateInfo.file r) as [[g|]|]; handler; try exact Hp.
    rewrite Nat.eqb_refl. exact Hp.
  - unfold runM, step, bind, takeTimer.
    destruct (nth_error (timers w) n) as [[f i|a url]|]; try exact Hp.
    unfold resume, loop.
    destruct (Nat.ltb (S i) (List.length steps)); exact Hp.
Qed.

Lemma exec_keeps_isProcessing (evs : list Event) (w : World) :
  isProcessing w = true -> isProcessing (exec evs w) = true.
Proof.
  revert w; induction evs as [|e evs IH]; intros w Hp; simpl; [exact Hp|].
  apply IH, step_keeps_isProcessing, Hp.
Qed.

(** C1. A run started with a file selected, once its five timers have
    fired, has put exactly one new record in front of the list and has
    cleared the selected file; [isProcessing], set when the run starts, is
    still [true], and stays so whatever happens next, for nothing ever sets
    it back: the button that starts a run stays disabled. *)
Theorem simulateUnrevoke_run_leaves_isProcessing_set
  (h : Host) (f : File.t) (w : World) :
  let w0 := runM (setSelectedFile (Some f)) w in
  let w' := exec (pipelineRun h w0) w0 in
  certificates w' = newCert h f :: certificates w
  /\ selectedFile w' = None
  /\ timers w' = timers w
  /\ isProcessing w' = true
  /\ forall evs, isProcessing (exec evs w') = true
                 /\ unrevokeDisabled (exec evs w') = true.
Proof.
  cbv zeta. rewrite (pipelineRun_exec h _ f) by reflexivity.
  repeat split.
  - now apply exec_keeps_isProcessing.
  - unfold unrevokeDisabled.
    rewrite exec_keeps_isProcessing by reflexivity.
    now destruct (selectedFile _).
Qed.

(** The end-to-end scenario: [cert1.p12] is picked on a fresh page and the
    run completes; the busy flag stays set and the trigger stays disabled. *)
Example cert1_scenario :
  let w := exec (Change (Some cert1) :: pipelineRun sampleHost initialWorld)
             initialWorld in
  certificates w = [newCert sampleHost cert1]
  /\ CertificateInfo.name (newCert sampleHost cert1) = "cert1"
  /\ CertificateInfo.status (newCert sampleHost cert1) = active
  /\ selectedFile w = None
  /\ isProcessing w = true
  /\ unrevokeDisabled (runM (step (Change (Some mycert))) w) = true.
Proof. cbv zeta. repeat split; reflexivity. Qed.

(** ** The exporter *)

(** What [handleDownload] does to the page for a record that holds a file. *)
Lemma handleDownload_saves (f : File.t) (name : string) (w : World) :
  let a := {| href := nextURL w; download := downloadName name |} in
  runM (handleDownload (Some (DomFile f)) name) w =
  {| certificates := certificates w; selectedFile := selectedFile w;
     isProcessing := isProcessing w; toasts := toasts w;
     fileInputValue := fileInputValue w;
     objectURLs := (nextURL w, f) :: objectURLs w;
     nextURL := S (nextURL w); body := (body w ++ [a])%list;
     saved := {| savedAs := downloadName name; bytes := File.content f |}
                :: saved w;
     timers := (timers w ++ [Cleanup a (nextURL w)])%list |}.
Proof.
  cbv zeta. handler. rewrite Nat.eqb_refl. reflexivity.
Qed.

(** An accepted file becomes the selected file. *)
Lemma change_accepts (f : File.t) (w : World) :
  endsWith (File.name f) ".p12" = true ->
  selectedFile (runM (step (Change (Some f))) w) = Some f
  /\ certificates (runM (step (Change (Some f))) w) = certificates w
  /\ saved (runM (step (Change (Some f))) w) = saved w.
Proof.
  intros E. unfold runM, step, bind, handleFileUpload. rewrite E.
  repeat split.
Qed.

(** The download button of the newest record. *)
Lemma download_newest (r : CertificateInfo.t) (f : File.t) (w : World) :
  hd_error (certificates w) = Some r ->
  CertificateInfo.file r = Some (DomFile f) ->
  saved (runM (step (Download 0)) w)
  = {| savedAs := downloadName (CertificateInfo.name r);
       bytes := File.content f |} :: saved w.
Proof.
  intros Hr Hf.
  assert (E : runM (step (Download 0)) w
              = runM (handleDownload (CertificateInfo.file r)
                        (CertificateInfo.name r)) w).
  { unfold runM at 1. unfold step, bind, get_certificates.
    destruct (certificates w) as [|r' cs]; [discriminate|].
    injection Hr as ->. reflexivity. }
  rewrite E, Hf. pose proof (handleDownload_saves f (CertificateInfo.name r) w) as H.
  cbv zeta in H. rewrite H. reflexivity.
Qed.

(** No download touches the list of records. *)
Lemma handleDownload_keeps_certificates
  (file : option FileValue) (name : string) (w : World) :
  certificates (runM (handleDownload file name) w) = certificates w.
Proof.
  destruct file as [[g|]|]; handler; try reflexivity.
  rewrite Nat.eqb_refl. reflexivity.
Qed.

Lemma download_keeps_certificates (n : nat) (w : World) :
  certificates (runM (step (Download n)) w) = certificates w.
Proof.
  unfold runM at 1. unfold step, bind, get_certificates.
  destruct (nth_error (certificates w) n) as [r|]; [|reflexivity].
  apply handleDownload_keeps_certificates.
Qed.

(** C4. Upload then export is the identity on the contents: when a file
    with an accepted name is picked and the run completes, the record put
    in front of the list retains that file, and [handleDownload] on a
    record that retains a file saves an artifact whose bytes are the bytes
    of that file; so the download of the new record saves the bytes that
    were uploaded. *)
Theorem upload_then_download_is_identity
  (h : Host) (f : File.t) (w : World) :
  endsWith (File.name f) ".p12" = true ->
  let w0 := runM (step (Change (Some f))) w in
  let w1 := exec (pipelineRun h w0) w0 in
  let w2 := runM (step (Download 0)) w1 in
  (forall g name v,
      saved (runM (handleDownload (Some (DomFile g)) name) v)
      = {| savedAs := downloadName name; bytes := File.content g |} :: saved v)
  /\ (exists r, certificates w1 = r :: certificates w
                /\ CertificateInfo.file r = Some (DomFile f)
                /\ saved w2 = {| savedAs := downloadName (CertificateInfo.name r);
                                 bytes := File.content f |} :: saved w)
  /\ certificates w2 = certificates w1.
Proof.
  intros E. cbv zeta.
  destruct (change_accepts f w E) as (Hs & Hc & Hv).
  rewrite (pipelineRun_exec h _ f Hs).
  split; [|split].
  - intros g name v. pose proof (handleDownload_saves g name v) as H.
    cbv zeta in H. now rewrite H.
  - exists (newCert h f). cbn [certificates]. rewrite Hc.
    split; [reflexivity|]. split; [reflexivity|].
    erewrite download_newest; [ | reflexivity | reflexivity ].
    cbn [saved]. now rewrite Hv.
  - apply download_keeps_certificates.
Qed.

Lemma upload_then_download_is_identity_witness :
  endsWith (File.name cert1) ".p12" = true
  /\ exists r,
       certificates (exec (Change (Some cert1) :: pipelineRun sampleHost initialWorld)
                       initialWorld) = [r]
       /\ saved (exec (Change (Some cert1)
                         :: (pipelineRun sampleHost initialWorld ++ [Download 0])%list)
                   initialWorld)
          = [ {| savedAs := downloadName (CertificateInfo.name r);
                 bytes := File.content cert1 |} ].
Proof.
  split; [reflexivity|].
  pose proof (upload_then_download_is_identity sampleHost cert1 initialWorld
                eq_refl) as H.
  cbv zeta in H. destruct H as (_ & (r & Hc & _ & Hs) & _).
  exists r. vm_compute in Hc, Hs |- *. split; [exact Hc | exact Hs].
Defined.

(** C7. On a record that retains no file, or whose [file] is not a [Blob],
    [handleDownload] only sends the "Download failed" message: nothing is
    saved and the list of records is what it was. *)
Theorem handleDownload_without_file (r : CertificateInfo.t) (w : World) :
  CertificateInfo.file r = None \/ CertificateInfo.file r = Some NotBlob ->
  let w' := runM (handleDownload (CertificateInfo.file r)
                    (CertificateInfo.name r)) w in
  toasts w' = downloadFailedToast :: toasts w
  /\ variant downloadFailedToast = destructive
  /\ certificates w' = certificates w
  /\ saved w' = saved w
  /\ w' = runM (toast downloadFailedToast) w.
Proof.
  intros [E|E]; cbv zeta; rewrite E; repeat split.
Qed.

Lemma handleDownload_without_file_witness :
  let r := CertificateInfo.mk "cert_7" "legacy" revoked "1/1/2024" "1/1/2025"
             "com.example.app" distribution None in
  let w := exec (Change (Some cert1) :: pipelineRun sampleHost initialWorld)
             initialWorld in
  CertificateInfo.file r = None
  /\ toasts (runM (handleDownload (CertificateInfo.file r)
                     (CertificateInfo.name r)) w)
     = downloadFailedToast :: toasts w
  /\ certificates (runM (handleDownload (CertificateInfo.file r)
                           (CertificateInfo.name r)) w)
     = certificates w.
Proof.
  cbv zeta. split; [reflexivity|].
  pose proof (handleDownload_without_file
                (CertificateInfo.mk "cert_7" "legacy" revoked "1/1/2024"
                   "1/1/2025" "com.example.app" distribution None)
                (exec (Change (Some cert1) :: pipelineRun sampleHost initialWorld)
                   initialWorld)
                (or_introl eq_refl)) as H.
  cbv zeta in H. destruct H as (Ht & _ & Hc & _). split; [exact Ht | exact Hc].
Defined.

(** ** Display name and export name *)

Lemma substring_length (n m : nat) (s : string) :
  String.length (substring n m s) = Nat.min m (String.length s - n).
Proof.
  revert n m; induction s as [|c s IH]; intros [|n] [|m]; simpl; try reflexivity.
  - rewrite IH. now rewrite Nat.sub_0_r.
  - apply IH.
  - apply IH.
Qed.

Lemma substring_middle (p m r : string) :
  substring (String.length p) (String.length m) (p ++ m ++ r) = m.
Proof.
  induction p as [|c p IH]; simpl; [apply substring_prefix | exact IH].
Qed.

(** When the first occurrence of [suf] in [s] is its end, [s] splits there
    and the part in front does not end with [suf]. *)
Lemma first_occurrence_at_end (s suf : string) :
  suf <> "" ->
  index 0 suf s = Some (String.length s - String.length suf) ->
  let p := substring 0 (String.length s - String.length suf) s in
  String.length suf <= String.length s
  /\ s = p ++ suf
  /\ endsWith p suf = false.
Proof.
  intros Hne Hi. cbv zeta.
  pose proof (index_correct1 _ _ _ _ Hi) as Hsub.
  assert (Hlen : String.length suf <= String.length s).
  { pose proof (substring_length (String.length s - String.length suf)
                  (String.length suf) s) as L.
    rewrite Hsub in L. lia. }
  assert (Hsplit : s = substring 0 (String.length s - String.length suf) s ++ suf).
  { pose proof (substring_split (String.length s - String.length suf) s) as Hs.
    replace (String.length s - (String.length s - String.length suf))
      with (String.length suf) in Hs by lia.
    rewrite Hsub in Hs. symmetry. apply Hs. lia. }
  split; [exact Hlen|]. split; [exact Hsplit|].
  destruct (endsWith _ suf) eqn:E; [|reflexivity].
  exfalso. apply endsWith_iff in E. destruct E as [q Hq].
  assert (Hs' : s = q ++ suf ++ suf)
    by (rewrite Hsplit, Hq at 1; apply append_assoc).
  assert (Hpos : 0 < String.length suf)
    by (destruct suf; [congruence | simpl; lia]).
  assert (Hq' : String.length q = String.length s - String.length suf - String.length suf).
  { rewrite Hs' at 1. rewrite !length_append. lia. }
  assert (Hlt : String.length q < String.length s - String.length suf).
  { rewrite Hs' at 1. rewrite !length_append. lia. }
  apply (index_correct2 _ _ _ _ Hi (String.length q) (Nat.le_0_l _) Hlt).
  rewrite Hs' at 1. apply substring_middle.
Qed.

(** [replace] with an empty replacement drops a suffix that is the first
    occurrence. *)
Lemma replace_first_occurrence_at_end (s suf : string) :
  suf <> "" ->
  index 0 suf s = Some (String.length s - String.length suf) ->
  replace s suf "" = substring 0 (String.length s - String.length suf) s.
Proof.
  intros Hne Hi.
  destruct (first_occurrence_at_end s suf Hne Hi) as (Hlen & _ & _).
  unfold replace. rewrite Hi. simpl.
  replace (String.length s - String.length suf + String.length suf)
    with (String.length s) by lia.
  rewrite Nat.sub_diag, substring_zero. apply append_empty_r.
Qed.

(** C5, as amended.  When [.p12] occurs in the name of the file only as
    its suffix, the record built for it is named by the name without that
    suffix, and [handleDownload] called with that name saves under the
    name of the file. *)
Theorem display_name_round_trip (h : Host) (f : File.t) :
  index 0 ".p12" (File.name f) = Some (String.length (File.name f) - 4) ->
  endsWith (File.name f) ".p12" = true
  /\ CertificateInfo.name (newCert h f) = stripP12Suffix (File.name f)
  /\ File.name f = CertificateInfo.name (newCert h f) ++ ".p12"
  /\ downloadName (CertificateInfo.name (newCert h f)) = File.name f.
Proof.
  intros Hi.
  assert (Hne : ".p12" <> "") by discriminate.
  change 4 with (String.length ".p12") in Hi.
  destruct (first_occurrence_at_end _ _ Hne Hi) as (Hlen & Hsplit & Hends).
  cbv zeta in Hsplit, Hends.
  pose proof (replace_first_occurrence_at_end _ _ Hne Hi) as Hrep.
  assert (E : endsWith (File.name f) ".p12" = true)
    by (apply endsWith_iff; eexists; exact Hsplit).
  split; [exact E|].
  unfold newCert; cbn [CertificateInfo.name].
  unfold stripP12Suffix, downloadName. rewrite E, Hrep.
  change 4 with (String.length ".p12"). rewrite Hends.
  repeat split; auto.
Qed.

Lemma display_name_round_trip_witness :
  index 0 ".p12" (File.name mycert) = Some (String.length (File.name mycert) - 4)
  /\ CertificateInfo.name (newCert sampleHost mycert) = "mycert"
  /\ downloadName (CertificateInfo.name (newCert sampleHost mycert)) = "mycert.p12".
Proof.
  split; [reflexivity|].
  destruct (display_name_round_trip sampleHost mycert eq_refl) as (_ & Hn & _ & Hd).
  split; [exact Hn | exact Hd].
Defined.

(** C5, as stated, fails on [cert.p12.p12], a name [handleFileUpload]
    accepts: the record is named [cert.p12], which already ends with
    [.p12], so the file is saved as [cert.p12] and not under its own name. *)
Lemma double_extension_breaks_name_round_trip :
  endsWith (File.name doubleExt) ".p12" = true
  /\ CertificateInfo.name (newCert sampleHost doubleExt) = "cert.p12"
  /\ downloadName (CertificateInfo.name (newCert sampleHost doubleExt)) = "cert.p12"
  /\ ~ (CertificateInfo.name (newCert sampleHost doubleExt)
          = stripP12Suffix (File.name doubleExt)
        /\ downloadName (CertificateInfo.name (newCert sampleHost doubleExt))
          = File.name doubleExt).
Proof.
  repeat split; try reflexivity.
  intros [_ H]. vm_compute in H. discriminate H.
Qed.

(** [replace] drops the first occurrence of [.p12], wherever it is: the
    record for [a.p12b.p12] is named [ab.p12], not [a.p12b]. *)
Example display_name_drops_first_occurrence :
  endsWith (File.name innerExt) ".p12" = true
  /\ CertificateInfo.name (newCert sampleHost innerExt) = "ab.p12"
  /\ stripP12Suffix (File.name innerExt) = "a.p12b".
Proof. repeat split; reflexivity. Qed.

(** ** The record store *)

(** A turn of the event loop leaves the records alone or puts the record
    it builds in front of them. *)
Lemma step_certificates (e : Event) (w : World) :
  certificates (runM (step e) w)
  = match produced e w with
    | Some r => r :: certificates w
    | None => certificates w
    end.
Proof.
  destruct e as [files0|h|n|n h]; cbn [produced].
  - destruct files0 as [file|]; handler; [|reflexivity].
    destruct (endsWith (File.name file) ".p12"); reflexivity.
  - unfold runM, step, simulateUnrevoke, bind, get_selectedFile.
    destruct (selectedFile w) as [f|]; reflexivity.
  - apply download_keeps_certificates.
  - unfold runM, step, bind, takeTimer.
    destruct (nth_error (timers w) n) as [[f i|a url]|]; try reflexivity.
    unfold resume, loop.
    destruct (Nat.ltb (S i) (List.length steps)); reflexivity.
Qed.

(** Over a trace the records only grow at the front. *)
Lemma exec_certificates (evs : list Event) (w : World) :
  exists new, certificates (exec evs w) = (new ++ certificates w)%list.
Proof.
  revert w; induction evs as [|e evs IH]; intros w; simpl.
  - now exists [].
  - destruct (IH (runM (step e) w)) as [new Hnew].
    rewrite Hnew, step_certificates.
    destruct (produced e w) as [r|].
    + exists (new ++ [r])%list. now rewrite <- app_assoc.
    + now exists new.
Qed.

(** C6. The list of records is only ever extended at its front: a turn of
    the event loop leaves it as it is or puts one record in front of it,
    over any trace the old list is a tail of the new one, and two runs one
    after the other, producing [R1] then [R2], give [R2; R1] in front of
    what was there. *)
Theorem certificates_prepend_only :
  (forall e w,
      certificates (runM (step e) w) = certificates w
      \/ exists r, certificates (runM (step e) w) = r :: certificates w)
  /\ (forall evs w,
        exists new, certificates (exec evs w) = (new ++ certificates w)%list)
  /\ (forall h1 h2 f1 f2 w,
        let w1 := runM (setSelectedFile (Some f1)) w in
        let w2 := exec (pipelineRun h1 w1) w1 in
        let w3 := runM (setSelectedFile (Some f2)) w2 in
        let w4 := exec (pipelineRun h2 w3) w3 in
        certificates w2 = newCert h1 f1 :: certificates w
        /\ certificates w4 = newCert h2 f2 :: newCert h1 f1 :: certificates w)
  /\ certificates (exec twoRuns initialWorld)
     = [newCert laterHost mycert; newCert sampleHost cert1].
Proof.
  split; [|split; [|split]].
  - intros e w. rewrite step_certificates.
    destruct (produced e w) as [r|]; [right; now exists r | now left].
  - apply exec_certificates.
  - intros h1 h2 f1 f2 w. cbv zeta.
    rewrite (pipelineRun_exec h1 _ f1) by reflexivity.
    rewrite (pipelineRun_exec h2 _ f2) by reflexivity.
    split; reflexivity.
  - reflexivity.
Qed.

(** Records built by a run retain the file of the run. *)
Lemma produced_retains_file (e : Event) (w : World) (r : CertificateInfo.t) :
  produced e w = Some r ->
  exists h f, r = newCert h f.
Proof.
  destruct e as [files0|h|n|n h]; cbn [produced]; try discriminate.
  destruct (nth_error (timers w) n) as [[f i|a url]|]; try discriminate.
  destruct (Nat.ltb (S i) (List.length steps)); [discriminate|].
  intros [= <-]. now exists h, f.
Qed.

Lemma exec_certificates_Forall (P : CertificateInfo.t -> Prop) :
  (forall h f, P (newCert h f)) ->
  forall evs w, Forall P (certificates w) -> Forall P (certificates (exec evs w)).
Proof.
  intros HP evs. induction evs as [|e evs IH]; intros w Hw; simpl; [exact Hw|].
  apply IH. rewrite step_certificates.
  destruct (produced e w) as [r|] eqn:E; [|exact Hw].
  constructor; [|exact Hw].
  destruct (produced_retains_file e w r E) as (h & f & ->). apply HP.
Qed.

(** C9. Whatever happens on the page, every record in the list retains a
    file, which is a [Blob]: its download button is enabled, and
    [handleDownload] on it sends no message and saves the file. *)
Theorem certificates_retain_their_file (evs : list Event) :
  Forall (fun r =>
            exists f,
              CertificateInfo.file r = Some (DomFile f)
              /\ downloadDisabled r = false
              /\ forall w,
                   let w' := runM (handleDownload (CertificateInfo.file r)
                                     (CertificateInfo.name r)) w in
                   toasts w' = toasts w
                   /\ saved w' = {| savedAs := downloadName (CertificateInfo.name r);
                                    bytes := File.content f |} :: saved w)
         (certificates (exec evs initialWorld)).
Proof.
  apply exec_certificates_Forall; [|constructor].
  intros h f. exists f. cbn [newCert CertificateInfo.file CertificateInfo.name].
  split; [reflexivity|]. split; [reflexivity|].
  intros w. pose proof (handleDownload_saves f (replace (File.name f) ".p12" "") w) as H.
  cbv zeta in H |- *. rewrite H. split; reflexivity.
Qed.

(** ** Identifiers *)

Lemma certId_inj (a b : Z) : certId a = certId b -> a = b.
Proof. unfold certId. simpl. intros [= H]. now apply ofInt_inj. Qed.

(** The identifier of a record built by a turn of the loop is made of the
    completion timestamp of that turn. *)
Lemma produced_stamp (e : Event) (w : World) :
  match produced e w with
  | Some r => exists z, completionStamp e w = Some z
                        /\ CertificateInfo.id r = certId z
  | None => completionStamp e w = None
  end.
Proof.
  unfold completionStamp.
  destruct e as [files0|h|n|n h]; cbn [produced]; try reflexivity.
  destruct (nth_error (timers w) n) as [[f i|a url]|]; try reflexivity.
  destruct (Nat.ltb (S i) (List.length steps)); [reflexivity|].
  exists (now_id h). split; reflexivity.
Qed.

(** The identifiers in the list are those of the completion timestamps of
    the trace, newest first. *)
Lemma exec_identifiers (evs : list Event) (w : World) :
  map CertificateInfo.id (certificates (exec evs w))
  = (rev (map certId (completionStamps evs w))
     ++ map CertificateInfo.id (certificates w))%list.
Proof.
  revert w; induction evs as [|e evs IH]; intros w; simpl; [reflexivity|].
  rewrite IH, step_certificates.
  pose proof (produced_stamp e w) as H.
  destruct (produced e w) as [r|].
  - destruct H as (z & -> & Hid). simpl. rewrite <- app_assoc, Hid. reflexivity.
  - rewrite H. reflexivity.
Qed.

Lemma NoDup_rev_iff {A} (l : list A) : NoDup (rev l) <-> NoDup l.
Proof.
  split; intros H.
  - rewrite <- (rev_involutive l). now apply NoDup_rev.
  - now apply NoDup_rev.
Qed.

Lemma NoDup_map_certId (l : list Z) :
  NoDup (map certId l) <-> NoDup l.
Proof.
  split.
  - apply NoDup_map_inv.
  - apply Finite.Injective_map_NoDup. intros a b. apply certId_inj.
Qed.

(** Handler by handler, whatever the order of the calls: the identifier
    of a record is made of the reading of [Date.now()] at the completion of
    its run, so two records get the same identifier exactly when these
    readings are the same, and the identifiers in the list are pairwise
    distinct exactly when the completion timestamps of the runs are. *)
Lemma identifiers_distinct_iff_completion_stamps_distinct (evs : list Event) :
  (forall h h' f f',
      CertificateInfo.id (newCert h f) = CertificateInfo.id (newCert h' f')
      <-> now_id h = now_id h')
  /\ (NoDup (map CertificateInfo.id (certificates (exec evs initialWorld)))
      <-> NoDup (completionStamps evs initialWorld)).
Proof.
  split.
  - intros h h' f f'. cbn [newCert CertificateInfo.id]. split.
    + apply certId_inj.
    + now intros ->.
  - rewrite exec_identifiers. cbn [certificates initialWorld map].
    rewrite app_nil_r, NoDup_rev_iff. apply NoDup_map_certId.
Qed.

(** Two runs five seconds apart get distinct identifiers. *)
Example twoRuns_identifiers :
  completionStamps twoRuns initialWorld = [1762077600000; 1762077605003]%Z
  /\ map CertificateInfo.id (certificates (exec twoRuns initialWorld))
     = ["cert_1762077605003"; "cert_1762077600000"].
Proof. split; reflexivity. Qed.

(** Nothing but the button keeps two runs apart: were [simulateUnrevoke]
    called twice before any timer fires, as in [doubleStart], the two runs
    could complete within one millisecond and build different records with
    the same identifier. *)
Example identifiers_reused_within_a_millisecond :
  let w := exec doubleStart initialWorld in
  certificates w = [newCert sampleHost' cert1; newCert sampleHost cert1]
  /\ newCert sampleHost' cert1 <> newCert sampleHost cert1
  /\ CertificateInfo.id (newCert sampleHost' cert1)
     = CertificateInfo.id (newCert sampleHost cert1)
  /\ ~ NoDup (map CertificateInfo.id (certificates w)).
Proof.
  cbv zeta.
  assert (E : certificates (exec doubleStart initialWorld)
              = [newCert sampleHost' cert1; newCert sampleHost cert1])
    by reflexivity.
  split; [exact E|]. split; [|split].
  - intros H. apply (f_equal CertificateInfo.type) in H. discriminate H.
  - reflexivity.
  - rewrite E. intros H. inversion H as [|x l Hin _]; subst.
    apply Hin. left. reflexivity.
Qed.

(** ** The stages of a run *)

Lemma exec_app (evs evs' : list Event) (w : World) :
  exec (evs ++ evs')%list w = exec evs' (exec evs w).
Proof.
  revert w; induction evs as [|e evs IH]; intros w; simpl; [reflexivity | apply IH].
Qed.

Lemma repeat_snoc {A} (x : A) (k : nat) :
  repeat x (S k) = (repeat x k ++ [x])%list.
Proof. induction k as [|k IH]; simpl in *; [reflexivity | now rewrite <- IH]. Qed.

(** The world after the call and [k] firings of the timer of the run, for
    [k] below the number of stages. *)
Lemma run_after_firings (h : Host) (f : File.t) (w : World) (k : nat) :
  selectedFile w = Some f ->
  k < List.length steps ->
  exec (Unrevoke h :: repeat (Timeout (List.length (timers w)) h) k) w =
  {| certificates := certificates w; selectedFile := Some f;
     isProcessing := true; toasts := toasts w;
     fileInputValue := fileInputValue w; objectURLs := objectURLs w;
     nextURL := nextURL w; body := body w; saved := saved w;
     timers := (timers w ++ [Stage f k])%list |}.
Proof.
  intros Hf. induction k as [|k IH]; intros Hk.
  - destruct w; simpl in *; subst. reflexivity.
  - rewrite repeat_snoc, app_comm_cons, exec_app, IH by lia.
    cbn [exec]. erewrite stage_rearms; [reflexivity | reflexivity | exact Hk].
Qed.

(** From a pending stage [i], the remaining firings end the run. *)
Lemma stage_run_to_end (h : Host) (f : File.t) (ts : list Task) (j : nat) :
  forall (i : nat) (w : World),
  timers w = (ts ++ [Stage f i])%list ->
  i + S j = List.length steps ->
  exec (repeat (Timeout (List.length ts) h) (S j)) w =
  {| certificates := newCert h f :: certificates w; selectedFile := None;
     isProcessing := isProcessing w; toasts := successToast :: toasts w;
     fileInputValue := ""; objectURLs := objectURLs w;
     nextURL := nextURL w; body := body w; saved := saved w;
     timers := ts |}.
Proof.
  induction j as [|j IH]; intros i w Ht Hi.
  - cbn [repeat exec]. apply stage_completes with (i := i); [exact Ht | lia].
  - change (repeat (Timeout (List.length ts) h) (S (S j)))
      with (Timeout (List.length ts) h :: repeat (Timeout (List.length ts) h) (S j)).
    cbn [exec]. rewrite (stage_rearms h f i w ts Ht) by lia.
    rewrite (IH (S i)); [reflexivity | reflexivity | simpl in *; lia].
Qed.

(** X1. No record before the last stage: after the call and fewer than five
    firings of its timer, the run is still in flight, and the records, the
    selected file and the messages are what they were at the call. *)
Theorem no_record_before_last_stage
  (h : Host) (f : File.t) (w : World) (k : nat) :
  selectedFile w = Some f ->
  k < List.length steps ->
  let w' := exec (Unrevoke h :: repeat (Timeout (List.length (timers w)) h) k) w in
  certificates w' = certificates w
  /\ selectedFile w' = Some f
  /\ isProcessing w' = true
  /\ toasts w' = toasts w
  /\ timers w' = (timers w ++ [Stage f k])%list.
Proof.
  intros Hf Hk. cbv zeta. rewrite (run_after_firings h f w k Hf Hk).
  repeat split.
Qed.

Lemma no_record_before_last_stage_witness :
  let w := runM (step (Change (Some cert1))) initialWorld in
  selectedFile w = Some cert1
  /\ 4 < List.length steps
  /\ certificates (exec (Unrevoke sampleHost :: repeat (Timeout 0 sampleHost) 4) w) = []
  /\ timers (exec (Unrevoke sampleHost :: repeat (Timeout 0 sampleHost) 4) w)
     = [Stage cert1 4].
Proof.
  cbv zeta. split; [reflexivity|]. split; [simpl; lia|].
  destruct (no_record_before_last_stage sampleHost cert1
              (runM (step (Change (Some cert1))) initialWorld) 4
              eq_refl ltac:(simpl; lia)) as (Hc & _ & _ & _ & Ht).
  split; [exact Hc | exact Ht].
Defined.

(** What the change event of an accepted file does. *)
Lemma change_accepted_world (g : File.t) (w : World) :
  endsWith (File.name g) ".p12" = true ->
  runM (step (Change (Some g))) w =
  {| certificates := certificates w; selectedFile := Some g;
     isProcessing := isProcessing w; toasts := uploadedToast g :: toasts w;
     fileInputValue := "C:\fakepath\" ++ File.name g;
     objectURLs := objectURLs w; nextURL := nextURL w; body := body w;
     saved := saved w; timers := timers w |}.
Proof.
  intros E. unfold runM, step, bind, handleFileUpload. rewrite E. reflexivity.
Qed.

(** X2. A file picked while a run is under way is lost: the run builds the
    record of the file it was started with, and on completion clears the
    selection, so the file picked in between is neither processed nor
    kept. *)
Theorem file_picked_during_run_is_dropped
  (h : Host) (f g : File.t) (w : World) (k : nat) :
  selectedFile w = Some f ->
  endsWith (File.name g) ".p12" = true ->
  k < List.length steps ->
  let w' := exec (pickDuringRun h w k g) w in
  certificates w' = newCert h f :: certificates w
  /\ selectedFile w' = None
  /\ fileInputValue w' = ""
  /\ toasts w' = successToast :: uploadedToast g :: toasts w
  /\ timers w' = timers w.
Proof.
  intros Hf Hg Hk. cbv zeta. unfold pickDuringRun.
  rewrite app_comm_cons, exec_app, (run_after_firings h f w k Hf Hk).
  cbn [exec]. rewrite (change_accepted_world g _ Hg).
  cbn [certificates selectedFile isProcessing toasts fileInputValue
       objectURLs nextURL body saved timers].
  destruct (List.length steps - k) as [|j] eqn:Ej; [lia|].
  erewrite stage_run_to_end; [ | reflexivity | lia ].
  repeat split.
Qed.

Lemma file_picked_during_run_is_dropped_witness :
  let w := runM (step (Change (Some cert1))) initialWorld in
  selectedFile w = Some cert1
  /\ endsWith (File.name mycert) ".p12" = true
  /\ 2 < List.length steps
  /\ certificates (exec (pickDuringRun sampleHost w 2 mycert) w)
     = [newCert sampleHost cert1]
  /\ selectedFile (exec (pickDuringRun sampleHost w 2 mycert) w) = None.
Proof.
  cbv zeta. split; [reflexivity|]. split; [reflexivity|]. split; [simpl; lia|].
  destruct (file_picked_during_run_is_dropped sampleHost cert1 mycert
              (runM (step (Change (Some cert1))) initialWorld) 2
              eq_refl eq_refl ltac:(simpl; lia)) as (Hc & Hs & _).
  split; [exact Hc | exact Hs].
Defined.

(** ** Names, in general *)

(** A string splits around any of its substrings that fits. *)
Lemma substring_split3 (pos m : nat) (s : string) :
  pos + m <= String.length s ->
  s = substring 0 pos s ++ substring pos m s
        ++ substring (pos + m) (String.length s - (pos + m)) s.
Proof.
  revert pos; induction s as [|c s IH]; intros [|pos] Hle; simpl in *.
  - assert (m = 0) by lia; subst. reflexivity.
  - lia.
  - destruct m as [|m]; simpl.
    + now rewrite substring_all.
    + f_equal. pose proof (substring_split m s) as H.
      symmetry. apply H. lia.
  - f_equal. apply IH. lia.
Qed.

(** What [replace] does, in terms of the receiver: nothing without an
    occurrence, and with one, the part before the first occurrence, the
    replacement and the part after it. *)
Lemma replace_spec (s pat rep : string) :
  pat <> "" ->
  match index 0 pat s with
  | None => replace s pat rep = s
                /\ forall k, substring k (String.length pat) s <> pat
  | Some pos =>
      exists pre post,
        s = pre ++ pat ++ post
        /\ replace s pat rep = pre ++ rep ++ post
        /\ String.length pre = pos
        /\ forall k, k < pos -> substring k (String.length pat) s <> pat
  end.
Proof.
  intros Hne. unfold replace.
  destruct (index 0 pat s) as [pos|] eqn:Hi.
  - pose proof (index_correct1 _ _ _ _ Hi) as Hsub.
    assert (Hpos : 0 < String.length pat)
      by (destruct pat; [congruence | simpl; lia]).
    assert (Hle : pos + String.length pat <= String.length s).
    { pose proof (substring_length pos (String.length pat) s) as L.
      rewrite Hsub in L. lia. }
    exists (substring 0 pos s),
      (substring (pos + String.length pat)
         (String.length s - (pos + String.length pat)) s).
    split; [|split; [|split]].
    + pose proof (substring_split3 pos (String.length pat) s Hle) as H3.
      rewrite Hsub in H3. exact H3.
    + reflexivity.
    + rewrite substring_length. lia.
    + intros k Hk. apply (index_correct2 _ _ _ _ Hi k); [lia | exact Hk].
  - split; [reflexivity|].
    intros k. apply (index_correct3 0 k pat s Hi Hne). lia.
Qed.

(** X3. Whatever name is accepted, the record is named by the name of the file
    with its first [.p12] cut out: the name of the file is
    [pre ++ ".p12" ++ post] with no [.p12] starting inside [pre], and the
    record is named [pre ++ post], four characters shorter. *)
Theorem display_name_cuts_first_p12 (h : Host) (f : File.t) :
  endsWith (File.name f) ".p12" = true ->
  exists pre post,
    File.name f = pre ++ ".p12" ++ post
    /\ CertificateInfo.name (newCert h f) = pre ++ post
    /\ (forall k, k < String.length pre -> substring k 4 (File.name f) <> ".p12")
    /\ String.length (CertificateInfo.name (newCert h f)) + 4
       = String.length (File.name f).
Proof.
  intros E. cbn [newCert CertificateInfo.name].
  assert (Hne : ".p12" <> "") by discriminate.
  pose proof (replace_spec (File.name f) ".p12" "" Hne) as H.
  destruct (index 0 ".p12" (File.name f)) as [pos|] eqn:Hi.
  - destruct H as (pre & post & Hs & Hr & Hl & Hfirst).
    exists pre, post. rewrite Hr. cbn [append].
    split; [exact Hs|]. split; [reflexivity|]. split.
    + intros k Hk. apply Hfirst. lia.
    + rewrite Hs, !length_append. simpl. lia.
  - exfalso. destruct H as [_ Hnone].
    unfold endsWith in E.
    destruct (Nat.ltb (String.length (File.name f)) (String.length ".p12"));
      [discriminate|].
    apply String.eqb_eq in E. exact (Hnone _ E).
Qed.

Lemma display_name_cuts_first_p12_witness :
  endsWith (File.name innerExt) ".p12" = true
  /\ exists pre post,
       File.name innerExt = pre ++ ".p12" ++ post
       /\ CertificateInfo.name (newCert sampleHost innerExt) = pre ++ post.
Proof.
  split; [reflexivity|].
  destruct (display_name_cuts_first_p12 sampleHost innerExt eq_refl)
    as (pre & post & Hs & Hn & _).
  exists pre, post. split; [exact Hs | exact Hn].
Defined.

(** X4. The name a download is saved under always ends with [.p12]: a name
    that ends with it is kept, any other gets it appended, and doing this
    twice changes nothing more. *)
Theorem downloadName_ends_with_p12 (name : string) :
  endsWith (downloadName name) ".p12" = true
  /\ (downloadName name = name \/ downloadName name = name ++ ".p12")
  /\ (downloadName name = name <-> exists p, name = p ++ ".p12")
  /\ downloadName (downloadName name) = downloadName name.
Proof.
  assert (H1 : endsWith (downloadName name) ".p12" = true).
  { unfold downloadName. destruct (endsWith name ".p12") eqn:E; [exact E|].
    apply endsWith_iff. now exists name. }
  split; [exact H1|]. split; [|split].
  - unfold downloadName. destruct (endsWith name ".p12"); auto.
  - rewrite <- endsWith_iff. unfold downloadName.
    destruct (endsWith name ".p12") eqn:E; split; auto; try discriminate.
    intros H. exfalso.
    apply (f_equal String.length) in H. rewrite length_append in H.
    simpl in H. lia.
  - unfold downloadName at 1. now rewrite H1.
Qed.

(** ** Turns of the event loop, case by case *)

Lemma removeNth_none {A} (n : nat) (l : list A) :
  nth_error l n = None -> removeNth n l = l.
Proof.
  revert n; induction l as [|a l IH]; intros [|n]; simpl; try reflexivity.
  - discriminate.
  - intros H. now rewrite IH.
Qed.

(** The click on the download button of the [n]-th record. *)
Lemma step_download_world (n : nat) (w : World) :
  runM (step (Download n)) w =
  match nth_error (certificates w) n with
  | Some r =>
      match CertificateInfo.file r with
      | Some (DomFile g) =>
          let a := {| href := nextURL w;
                      download := downloadName (CertificateInfo.name r) |} in
          {| certificates := certificates w; selectedFile := selectedFile w;
             isProcessing := isProcessing w; toasts := toasts w;
             fileInputValue := fileInputValue w;
             objectURLs := (nextURL w, g) :: objectURLs w;
             nextURL := S (nextURL w); body := (body w ++ [a])%list;
             saved := {| savedAs := downloadName (CertificateInfo.name r);
                         bytes := File.content g |} :: saved w;
             timers := (timers w ++ [Cleanup a (nextURL w)])%list |}
      | Some NotBlob | None => runM (toast downloadFailedToast) w
      end
  | None => w
  end.
Proof.
  unfold runM at 1. unfold step, bind, get_certificates.
  destruct (nth_error (certificates w) n) as [r|]; [|reflexivity].
  destruct (CertificateInfo.file r) as [[g|]|]; try reflexivity.
  pose proof (handleDownload_saves g (CertificateInfo.name r) w) as H.
  cbv zeta in H. exact H.
Qed.

(** Splits a goal about [runM (step e) w] into the paths of the handlers;
    the world of each path is left written out. *)
Ltac step_cases e w :=
  destruct e as [[?file|]|?h|?n|?n ?h];
  [ unfold runM, step, bind, handleFileUpload, setFileInputValue;
    destruct (endsWith (File.name file) ".p12") eqn:?Hends
  | unfold runM, step, bind, handleFileUpload, setFileInputValue
  | unfold runM, step, simulateUnrevoke, bind, get_selectedFile;
    destruct (selectedFile w) as [?f|] eqn:?Hsel;
    [ match goal with
      | |- context [loop ?h0 ?f0 0] =>
          change (loop h0 f0 0) with (setTimeout (Stage f0 0))
      end
    | ]
  | rewrite !step_download_world;
    destruct (nth_error (certificates w) n) as [?r|] eqn:?Hnth;
    [ destruct (CertificateInfo.file r) as [[?g|]|] eqn:?Hfile;
      [ cbv zeta | unfold runM | unfold runM ]
    | ]
  | unfold runM, step, bind, takeTimer;
    destruct (nth_error (timers w) n) as [[?f ?i|?a ?url]|] eqn:?Hnth;
    [ unfold resume, loop;
      destruct (Nat.ltb (S i) (List.length steps)) eqn:?Hlast
    | unfold resume, bind, removeChild, revokeObjectURL
    | unfold ret; rewrite (removeNth_none _ _ Hnth) ] ];
  cbn [snd fst certificates selectedFile isProcessing toasts fileInputValue
       objectURLs nextURL body saved timers setTimeout finish bind
       setCertificates toast setSelectedFile setFileInputValue
       setIsProcessing].

(** ** What every record looks like *)

(** X5. Whatever happens on the page, every record in the list has the status
    [active], for which [getStatusBadge] gives the green "Active" badge, the
    bundle identifier [com.example.app], and an identifier made of [cert_]
    and an integer: the "Revoked" and "Processing" badges are never shown. *)
Theorem certificates_are_all_active (evs : list Event) :
  Forall (fun r =>
            CertificateInfo.status r = active
            /\ getStatusBadge (CertificateInfo.status r) = getStatusBadge active
            /\ badgeLabel (getStatusBadge (CertificateInfo.status r)) = "Active"
            /\ CertificateInfo.bundleId r = "com.example.app"
            /\ exists now, CertificateInfo.id r = "cert_" ++ ofInt now)
         (certificates (exec evs initialWorld)).
Proof.
  apply exec_certificates_Forall; [|constructor].
  intros h f. cbn [newCert CertificateInfo.status CertificateInfo.bundleId
                   CertificateInfo.id].
  repeat split. now exists (now_id h).
Qed.

(** ** Messages *)

Lemma step_success_toasts (e : Event) (w : World) :
  List.length (filter isSuccessToast (toasts (runM (step e) w)))
  = match produced e w with
    | Some _ => S (List.length (filter isSuccessToast (toasts w)))
    | None => List.length (filter isSuccessToast (toasts w))
    end.
Proof.
  unfold produced.
  step_cases e w; try rewrite Hnth; try rewrite Hlast; reflexivity.
Qed.

(** X6. A "Success!" message is sent exactly when a record is added: over any
    trace, as many of them have been sent as there are records. *)
Theorem one_success_message_per_record (evs : list Event) :
  List.length (filter isSuccessToast (toasts (exec evs initialWorld)))
  = List.length (certificates (exec evs initialWorld)).
Proof.
  assert (G : forall w,
             List.length (filter isSuccessToast (toasts w))
             = List.length (certificates w) ->
             List.length (filter isSuccessToast (toasts (exec evs w)))
             = List.length (certificates (exec evs w))).
  { induction evs as [|e evs IH]; intros w Hw; simpl; [exact Hw|].
    apply IH. rewrite step_success_toasts, step_certificates.
    destruct (produced e w); simpl; lia. }
  apply G. reflexivity.
Qed.

(** ** The page with its buttons *)

Lemma stagesPending_app (ts ts' : list Task) :
  stagesPending (ts ++ ts')%list = stagesPending ts + stagesPending ts'.
Proof.
  induction ts as [|[f i|a url] ts IH]; simpl; [reflexivity | now rewrite IH | exact IH].
Qed.

Lemma stagesPending_removeNth (n : nat) (ts : list Task) (t : Task) :
  nth_error ts n = Some t ->
  stagesPending ts
  = stagesPending (removeNth n ts)
    + match t with Stage _ _ => 1 | Cleanup _ _ => 0 end.
Proof.
  revert n; induction ts as [|t' ts IH]; intros [|n] H; simpl in *;
    try discriminate.
  - injection H as ->. destruct t; simpl; lia.
  - rewrite (IH n H). destruct t'; simpl; lia.
Qed.

(** A disabled button changes nothing; an enabled one runs the handler. *)
Lemma uiStep_cases (e : Event) (w : World) :
  enabled e w = false /\ runM (uiStep e) w = w
  \/ enabled e w = true /\ runM (uiStep e) w = runM (step e) w.
Proof.
  unfold runM, uiStep. destruct (enabled e w); [right | left]; split; reflexivity.
Qed.

(** The runs started so far, finished or in flight. *)
Lemma step_runs_started (e : Event) (w : World) :
  enabled e w = true ->
  (if isProcessing w
   then List.length (certificates w) + stagesPending (timers w) = 1
   else certificates w = [] /\ stagesPending (timers w) = 0) ->
  let w' := runM (step e) w in
  if isProcessing w'
  then List.length (certificates w') + stagesPending (timers w') = 1
  else certificates w' = [] /\ stagesPending (timers w') = 0.
Proof.
  intros He Hw. cbv zeta. unfold enabled, unrevokeDisabled in He.
  step_cases e w; try exact Hw;
    try (rewrite stagesPending_app; simpl; rewrite Nat.add_0_r; exact Hw).
  - try rewrite Hsel in He. destruct (isProcessing w); [discriminate|].
    destruct Hw as [Hc Hs]. rewrite Hc, stagesPending_app, Hs. reflexivity.
  - pose proof (stagesPending_removeNth _ _ _ Hnth) as Hc; simpl in Hc.
    rewrite stagesPending_app. simpl. revert Hw.
    destruct (isProcessing w); intros Hw; [lia | destruct Hw; split; [assumption | lia]].
  - pose proof (stagesPending_removeNth _ _ _ Hnth) as Hc; simpl in Hc. revert Hw.
    destruct (isProcessing w); intros Hw; [simpl; lia | destruct Hw; lia].
  - pose proof (stagesPending_removeNth _ _ _ Hnth) as Hc; simpl in Hc.
    rewrite Nat.add_0_r in Hc. rewrite <- Hc. exact Hw.
Qed.

(** X7. Through the buttons of the page, one run at most is ever started: over
    any sequence of user actions and timers on a fresh page, the records
    and the runs in flight are one at most together, so the list never
    holds more than one record. *)
Theorem page_processes_one_certificate_at_most (evs : list Event) :
  let w := uiExec evs initialWorld in
  List.length (certificates w) + stagesPending (timers w) <= 1
  /\ List.length (certificates w) <= 1
  /\ (certificates w <> [] -> unrevokeDisabled w = true).
Proof.
  cbv zeta.
  assert (G : forall w,
     (if isProcessing w
      then List.length (certificates w) + stagesPending (timers w) = 1
      else certificates w = [] /\ stagesPending (timers w) = 0) ->
     if isProcessing (uiExec evs w)
     then List.length (certificates (uiExec evs w))
          + stagesPending (timers (uiExec evs w)) = 1
     else certificates (uiExec evs w) = []
          /\ stagesPending (timers (uiExec evs w)) = 0).
  { induction evs as [|e evs IH]; intros w Hw; simpl; [exact Hw|].
    apply IH. destruct (uiStep_cases e w) as [[_ ->]|[He ->]]; [exact Hw|].
    now apply step_runs_started. }
  specialize (G initialWorld (conj eq_refl eq_refl)).
  unfold unrevokeDisabled.
  destruct (isProcessing (uiExec evs initialWorld)).
  - repeat split; try lia. now destruct (selectedFile _).
  - destruct G as [-> ->]. repeat split; simpl; try lia. congruence.
Qed.

(** The messages a turn on the page can add, given that every record
    retains its file. *)
Lemma step_page_messages (e : Event) (w : World) :
  enabled e w = true ->
  Forall (fun r => exists g, CertificateInfo.file r = Some (DomFile g))
    (certificates w) ->
  toasts (runM (step e) w) = toasts w
  \/ toasts (runM (step e) w) = successToast :: toasts w
  \/ toasts (runM (step e) w) = invalidFormatToast :: toasts w
  \/ exists f, endsWith (File.name f) ".p12" = true
               /\ toasts (runM (step e) w) = uploadedToast f :: toasts w.
Proof.
  intros He Hc. unfold enabled, unrevokeDisabled, downloadDisabled in He.
  step_cases e w; auto.
  - right; right; right. now exists file.
  - try rewrite Hsel in He. discriminate He.
  - exfalso. rewrite Forall_forall in Hc.
    destruct (Hc r (nth_error_In _ _ Hnth)) as [g Hg]. congruence.
  - try rewrite Hnth in He. try rewrite Hfile in He. discriminate He.
Qed.

(** X8. On the page, the guards of [simulateUnrevoke] and [handleDownload] are
    never met: over any sequence of user actions and timers on a fresh
    page, every message sent is "Success!", "Certificate uploaded" for an
    accepted file, or "Invalid file format"; "Missing file" and "Download
    failed" are never sent. *)
Theorem page_never_reports_missing_file_or_failed_download (evs : list Event) :
  let w := uiExec evs initialWorld in
  Forall (fun t =>
            t = successToast \/ t = invalidFormatToast
            \/ exists f, endsWith (File.name f) ".p12" = true
                         /\ t = uploadedToast f)
         (toasts w)
  /\ ~ In missingFileToast (toasts w)
  /\ ~ In downloadFailedToast (toasts w).
Proof.
  cbv zeta.
  set (ok := fun t => t = successToast \/ t = invalidFormatToast
                      \/ exists f, endsWith (File.name f) ".p12" = true
                                   /\ t = uploadedToast f).
  set (has := fun r => exists g, CertificateInfo.file r = Some (DomFile g)).
  assert (G : forall w,
             Forall has (certificates w) -> Forall ok (toasts w) ->
             Forall has (certificates (uiExec evs w))
             /\ Forall ok (toasts (uiExec evs w))).
  { induction evs as [|e evs IH]; intros w Hc Ht; simpl; [now split|].
    destruct (uiStep_cases e w) as [[_ ->]|[He ->]]; [now apply IH|].
    apply IH.
    - rewrite step_certificates.
      destruct (produced e w) as [r|] eqn:E; [|exact Hc].
      constructor; [|exact Hc].
      destruct (produced_retains_file e w r E) as (h & f & ->).
      now exists f.
    - destruct (step_page_messages e w He Hc)
        as [-> | [-> | [-> | (f & Hf & ->)]]]; auto;
        constructor; auto; unfold ok; auto.
      right; right. now exists f. }
  destruct (G initialWorld (Forall_nil _) (Forall_nil _)) as [_ Ht].
  split; [exact Ht|]. rewrite Forall_forall in Ht.
  split; intros Hin; apply Ht in Hin;
    destruct Hin as [H | [H | (f & _ & H)]]; discriminate H.
Qed.

(** ** Object URLs and anchors *)

Lemma cleanups_app (ts ts' : list Task) :
  cleanups (ts ++ ts')%list = (cleanups ts ++ cleanups ts')%list.
Proof.
  induction ts as [|[f i|a url] ts IH]; simpl; [reflexivity | exact IH | now rewrite IH].
Qed.

Lemma removeNth_split {A} (n : nat) (l : list A) (x : A) :
  nth_error l n = Some x ->
  exists l1 l2, l = (l1 ++ x :: l2)%list /\ removeNth n l = (l1 ++ l2)%list.
Proof.
  revert n; induction l as [|a l IH]; intros [|n] H; simpl in *; try discriminate.
  - injection H as ->. now exists [], l.
  - destruct (IH n H) as (l1 & l2 & -> & ->). now exists (a :: l1), l2.
Qed.

Lemma Anchor_eqb_refl (a : Anchor) : Anchor_eqb a a = true.
Proof. unfold Anchor_eqb. now rewrite Nat.eqb_refl, String.eqb_refl. Qed.

Lemma removeFirst_middle (a : Anchor) (l1 l2 : list Anchor) :
  (forall b, In b l1 -> href b <> href a) ->
  removeFirst a (l1 ++ a :: l2)%list = (l1 ++ l2)%list.
Proof.
  induction l1 as [|b l1 IH]; intros H; simpl.
  - now rewrite Anchor_eqb_refl.
  - unfold Anchor_eqb at 1.
    destruct (Nat.eqb_spec (href a) (href b)) as [E|_].
    + exfalso. apply (H b); [now left | now symmetry].
    + simpl. rewrite IH; [reflexivity|]. intros c Hc. apply H. now right.
Qed.

Lemma filter_other (u : nat) (l : list nat) :
  ~ In u l -> filter (fun y => negb (Nat.eqb y u)) l = l.
Proof.
  induction l as [|y l IH]; intros H; simpl; [reflexivity|].
  destruct (Nat.eqb_spec y u) as [->|_]; simpl.
  - exfalso. apply H. now left.
  - rewrite IH; [reflexivity|]. intros Hin. apply H. now right.
Qed.

Lemma map_fst_filter (u : nat) (l : list (nat * File.t)) :
  map fst (filter (fun e => negb (Nat.eqb (fst e) u)) l)
  = filter (fun y => negb (Nat.eqb y u)) (map fst l).
Proof.
  induction l as [|[y b] l IH]; simpl; [reflexivity|].
  destruct (Nat.eqb y u); simpl; now rewrite IH.
Qed.

(** Every turn of the event loop keeps the page tidy. *)
Lemma step_tidy (e : Event) (w : World) : tidy w -> tidy (runM (step e) w).
Proof.
  unfold tidy. intros (Hb & Hu & Hf & Hn).
  step_cases e w; try (repeat split; assumption).
  - (* a stage is appended *)
    rewrite cleanups_app, app_nil_r. repeat split; assumption.
  - (* a download *)
    rewrite cleanups_app. cbn [cleanups]. rewrite !map_app. cbn [map fst snd].
    rewrite rev_app_distr. cbn [rev app].
    split; [now rewrite Hb|]. split; [now rewrite Hu|]. split.
    + apply Forall_app. split.
      * eapply Forall_impl; [|exact Hf]. intros c [H1 H2]. split; [exact H1 | lia].
      * constructor; [|constructor]. split; [reflexivity | simpl; lia].
    + apply NoDup_app; [exact Hn | repeat constructor; intros [] | ].
      intros u Hin [<-|[]].
      apply in_map_iff in Hin. destruct Hin as (c & Hc & Hin).
      rewrite Forall_forall in Hf. destruct (Hf c Hin) as [_ Hlt]. lia.
  - (* a stage re-arms *)
    destruct (removeNth_split _ _ _ Hnth) as (l1 & l2 & E & ->).
    rewrite E in Hb, Hu, Hf, Hn.
    rewrite !cleanups_app in *. cbn [cleanups] in *.
    rewrite ?app_nil_r. repeat split; assumption.
  - (* the last stage *)
    destruct (removeNth_split _ _ _ Hnth) as (l1 & l2 & E & ->).
    rewrite E in Hb, Hu, Hf, Hn.
    rewrite !cleanups_app in *. cbn [cleanups] in *.
    repeat split; assumption.
  - (* a clean-up *)
    destruct (removeNth_split _ _ _ Hnth) as (l1 & l2 & E & ->).
    rewrite E in Hb, Hu, Hf, Hn.
    rewrite !cleanups_app in *. cbn [cleanups] in *.
    rewrite !map_app in *. cbn [map fst snd] in *.
    apply Forall_app in Hf. destruct Hf as [Hf1 Hf2].
    pose proof (Forall_inv Hf2) as [Hhref Hlt].
    pose proof (Forall_inv_tail Hf2) as Hf2'. cbn [fst snd] in *.
    apply NoDup_remove in Hn. destruct Hn as [Hn Hnotin].
    split; [|split; [|split]].
    + rewrite Hb. apply removeFirst_middle.
      intros b Hin. apply in_map_iff in Hin. destruct Hin as (c & <- & Hin).
      rewrite Forall_forall in Hf1. destruct (Hf1 c Hin) as [Hc _].
      intros Heq. apply Hnotin.
      apply in_or_app. left. apply in_map_iff. exists c.
      split; [congruence | exact Hin].
    + rewrite map_fst_filter, Hu, rev_app_distr. cbn [rev].
      rewrite <- app_assoc. cbn [app].
      rewrite filter_app. cbn [filter]. rewrite Nat.eqb_refl. cbn [negb].
      rewrite !filter_other, <- rev_app_distr; [reflexivity | | ];
        rewrite <- in_rev; intros Hin; apply Hnotin, in_or_app; auto.
    + apply Forall_app. split; assumption.
    + exact Hn.
Qed.

(** X9. Every object URL and every anchor made by a download is released by
    its clean-up timer and by nothing else: over any trace, the live
    object URLs and the anchors left in the document are exactly those of
    the pending clean-ups, and none is left once these have fired. *)
Theorem object_urls_are_released (evs : list Event) :
  let w := exec evs initialWorld in
  tidy w
  /\ List.length (objectURLs w) = List.length (cleanups (timers w))
  /\ List.length (body w) = List.length (cleanups (timers w))
  /\ (cleanups (timers w) = [] -> objectURLs w = [] /\ body w = []).
Proof.
  cbv zeta.
  assert (G : forall w, tidy w -> tidy (exec evs w)).
  { induction evs as [|e evs IH]; intros w Hw; simpl; [exact Hw|].
    apply IH, step_tidy, Hw. }
  assert (T : tidy (exec evs initialWorld)).
  { apply G. unfold tidy. simpl. repeat split; constructor. }
  split; [exact T|]. destruct T as (Hb & Hu & _ & _).
  assert (Lu : List.length (objectURLs (exec evs initialWorld))
               = List.length (cleanups (timers (exec evs initialWorld)))).
  { rewrite <- (length_map fst), Hu, length_rev, length_map. reflexivity. }
  assert (Lb : List.length (body (exec evs initialWorld))
               = List.length (cleanups (timers (exec evs initialWorld)))).
  { rewrite Hb, length_map. reflexivity. }
  split; [exact Lu|]. split; [exact Lb|].
  intros E. rewrite E in Lu, Lb. simpl in Lu, Lb.
  split; [now apply length_zero_iff_nil | now apply length_zero_iff_nil].
Qed.

(** ** Where saved bytes come from *)

Lemma uploads_accepted (evs : list Event) (g : File.t) :
  In g (uploads evs) -> endsWith (File.name g) ".p12" = true.
Proof.
  induction evs as [|[[file|]|h|n|n h] evs IH]; simpl; try exact IH; [intros []|].
  destruct (endsWith (File.name file) ".p12") eqn:E; [|exact IH].
  intros [<-|H]; [exact E | now apply IH].
Qed.

Lemma drawnFrom_mono (pool pool' : list File.t) (w : World) :
  (forall f, In f pool -> In f pool') ->
  drawnFrom pool w -> drawnFrom pool' w.
Proof.
  intros Hsub (Hs & Ht & Hc & Hv). unfold drawnFrom.
  split; [intros f Hf; auto|]. split; [intros f i Hf; eauto|]. split.
  - eapply Forall_impl; [|exact Hc]. intros r (g & Hg & Hin). exists g; auto.
  - eapply Forall_impl; [|exact Hv]. intros a (Ha & g & Hin & Hb).
    split; [exact Ha|]. exists g; auto.
Qed.

Lemma downloadName_ends (name : string) :
  endsWith (downloadName name) ".p12" = true.
Proof.
  unfold downloadName. destruct (endsWith name ".p12") eqn:E; [exact E|].
  apply endsWith_iff. now exists name.
Qed.

(** A turn of the event loop draws files from nowhere but the pool and the
    file it accepts. *)
Lemma step_drawnFrom (e : Event) (pool : list File.t) (w : World) :
  drawnFrom pool w -> drawnFrom (pool ++ uploads [e])%list (runM (step e) w).
Proof.
  intros H.
  assert (H' : drawnFrom (pool ++ uploads [e])%list w)
    by (apply (drawnFrom_mono pool); [intros f Hf; apply in_or_app; now left | exact H]).
  clear H. destruct H' as (Hs & Ht & Hc & Hv). unfold drawnFrom.
  step_cases e w; try (repeat split; assumption);
    try (rewrite Hsel; repeat split; assumption).
  - (* an accepted file *)
    split; [|repeat split; assumption].
    intros f [= <-]. apply in_or_app. right. simpl. rewrite Hends. now left.
  - (* a run starts *)
    rewrite Hsel. split; [exact Hs|]. split; [|split; assumption].
    intros f' i Hin. apply in_app_or in Hin. destruct Hin as [Hin|[[= <- _]|[]]].
    + eapply Ht, Hin.
    + now apply Hs.
  - (* a download *)
    split; [exact Hs|]. split; [|split; [exact Hc|]].
    + intros f' i Hin. apply in_app_or in Hin.
      destruct Hin as [Hin|[Hin|[]]]; [eapply Ht, Hin | discriminate Hin].
    + constructor; [|exact Hv]. cbn [savedAs bytes].
      split; [apply downloadName_ends|].
      rewrite Forall_forall in Hc.
      destruct (Hc r (nth_error_In _ _ Hnth)) as (g' & Hg' & Hin).
      exists g'. split; [exact Hin | congruence].
  - (* a stage re-arms *)
    destruct (removeNth_split _ _ _ Hnth) as (l1 & l2 & E & ->).
    split; [exact Hs|]. split; [|split; assumption].
    intros f' i' Hin. rewrite E in Ht.
    apply in_app_or in Hin. destruct Hin as [Hin|[[= <- _]|[]]].
    + apply (Ht f' i'). apply in_app_or in Hin. apply in_or_app.
      destruct Hin; [now left | right; now right].
    + apply (Ht f i). apply in_or_app. right. now left.
  - (* the last stage *)
    destruct (removeNth_split _ _ _ Hnth) as (l1 & l2 & E & ->).
    rewrite E in Ht.
    split; [discriminate|]. split; [|split; [|exact Hv]].
    + intros f' i' Hin. apply (Ht f' i').
      apply in_app_or in Hin. apply in_or_app.
      destruct Hin; [now left | right; now right].
    + constructor; [|exact Hc]. exists f. split; [reflexivity|].
      apply (Ht f i). apply in_or_app. right. now left.
  - (* a clean-up *)
    destruct (removeNth_split _ _ _ Hnth) as (l1 & l2 & E & ->).
    rewrite E in Ht.
    split; [exact Hs|]. split; [|split; assumption].
    intros f' i' Hin. apply (Ht f' i').
    apply in_app_or in Hin. apply in_or_app.
    destruct Hin; [now left | right; now right].
Qed.

Lemma uploads_cons (e : Event) (evs : list Event) :
  uploads (e :: evs) = (uploads [e] ++ uploads evs)%list.
Proof.
  destruct e as [[file|]|h|n|n h]; simpl; try reflexivity.
  destruct (endsWith (File.name file) ".p12"); reflexivity.
Qed.

Lemma exec_drawnFrom (evs : list Event) :
  forall pool w,
  drawnFrom pool w -> drawnFrom (pool ++ uploads evs)%list (exec evs w).
Proof.
  induction evs as [|e evs IH]; intros pool w H; simpl exec.
  - simpl. now rewrite app_nil_r.
  - rewrite uploads_cons, app_assoc. apply IH, step_drawnFrom, H.
Qed.

(** X10. Nothing is saved that was not uploaded: over any trace, every artifact
    saved has a name that ends with [.p12] and the bytes of a file that a
    change event of the trace brought in and [handleFileUpload] accepted. *)
Theorem saved_artifacts_were_uploaded (evs : list Event) :
  Forall (fun art =>
            endsWith (savedAs art) ".p12" = true
            /\ exists g, In (Change (Some g)) evs
                         /\ endsWith (File.name g) ".p12" = true
                         /\ bytes art = File.content g)
         (saved (exec evs initialWorld)).
Proof.
  assert (H0 : drawnFrom [] initialWorld).
  { unfold drawnFrom. simpl. repeat split; try constructor; try discriminate.
    intros f i []. }
  destruct (exec_drawnFrom evs [] initialWorld H0) as (_ & _ & _ & Hv).
  eapply Forall_impl; [|exact Hv].
  intros art (Ha & g & Hin & Hb). cbn [app] in Hin.
  split; [exact Ha|]. exists g.
  split; [|split; [now apply (uploads_accepted evs) | exact Hb]].
  clear - Hin. induction evs as [|[[file|]|h|n|n h] evs IH]; simpl in *;
    try (right; now apply IH); [destruct Hin|].
  destruct (endsWith (File.name file) ".p12").
  - destruct Hin as [->|Hin]; [now left | right; now apply IH].
  - right; now apply IH.
Qed.

(** ** Calls that overlap *)

(** The call itself, with a file selected. *)
Lemma unrevoke_world (h : Host) (f : File.t) (w : World) :
  selectedFile w = Some f ->
  runM (step (Unrevoke h)) w =
  {| certificates := certificates w; selectedFile := Some f;
     isProcessing := true; toasts := toasts w;
     fileInputValue := fileInputValue w; objectURLs := objectURLs w;
     nextURL := nextURL w; body := body w; saved := saved w;
     timers := (timers w ++ [Stage f 0])%list |}.
Proof. intros Hf. apply (run_after_firings h f w 0 Hf). simpl; lia. Qed.

(** X12. [simulateUnrevoke] does not look at [isProcessing]: called again while
    a run is under way and the file is still selected, it starts a second
    run on the same file, and both runs build a record of it. *)
Theorem double_call_duplicates_record (h : Host) (f : File.t) (w : World) :
  selectedFile w = Some f ->
  let w' := exec (doubleCall h w) w in
  certificates w' = newCert h f :: newCert h f :: certificates w
  /\ toasts w' = successToast :: successToast :: toasts w
  /\ selectedFile w' = None
  /\ timers w' = timers w.
Proof.
  intros Hf. cbv zeta. unfold doubleCall.
  change (exec (Unrevoke h :: Unrevoke h :: ?l) w)
    with (exec l (runM (step (Unrevoke h)) (runM (step (Unrevoke h)) w))).
  rewrite (unrevoke_world h f w Hf).
  erewrite (unrevoke_world h f); [|reflexivity].
  cbn [certificates selectedFile isProcessing toasts fileInputValue
       objectURLs nextURL body saved timers].
  rewrite exec_app.
  replace (S (List.length (timers w)))
    with (List.length (timers w ++ [Stage f 0])%list)
    by (rewrite length_app; simpl; lia).
  change (List.length steps) with 5.
  rewrite (stage_run_to_end h f (timers w ++ [Stage f 0])%list 4 0);
    [ | reflexivity | reflexivity ].
  cbn [certificates selectedFile isProcessing toasts fileInputValue
       objectURLs nextURL body saved timers].
  rewrite (stage_run_to_end h f (timers w) 4 0); [ | reflexivity | reflexivity ].
  repeat split.
Qed.

Lemma double_call_duplicates_record_witness :
  let w := runM (step (Change (Some cert1))) initialWorld in
  selectedFile w = Some cert1
  /\ certificates (exec (doubleCall sampleHost w) w)
     = [newCert sampleHost cert1; newCert sampleHost cert1].
Proof.
  cbv zeta. split; [reflexivity|].
  destruct (double_call_duplicates_record sampleHost cert1
              (runM (step (Change (Some cert1))) initialWorld) eq_refl)
    as (Hc & _).
  exact Hc.
Defined.

(** ** Identifiers on the page *)




(** [doubleStart] on the page: the second click finds the button disabled,
    one run is made and one record built. *)
Example doubleStart_on_the_page :
  performed doubleStart initialWorld
  = [ Change (Some cert1); Unrevoke sampleHost;
      Timeout 0 sampleHost; Timeout 0 sampleHost; Timeout 0 sampleHost;
      Timeout 0 sampleHost; Timeout 0 sampleHost; Timeout 0 sampleHost;
      Timeout 0 sampleHost; Timeout 0 sampleHost; Timeout 0 sampleHost;
      Timeout 0 sampleHost' ]
  /\ certificates (uiExec doubleStart initialWorld) = [newCert sampleHost cert1]
  /\ map CertificateInfo.id (certificates (uiExec doubleStart initialWorld))
     = ["cert_1762077600000"].
Proof. repeat split; reflexivity. Qed.
